(** * PyPowerUp Streamlit: the computed values of [app.py]

    The application displays, next to every result of the [pypowerup]
    library, the degrees of freedom and the multiplier [M = T1 +- T2] it
    rests on, and for regression-discontinuity designs an estimated design
    effect.  Three functions of [app.py] compute them:

    - [get_df_for_design]      (app.py, lines 582-613)
    - [calculate_multiplier]   (app.py, lines 569-579)
    - [estimate_design_effect] (app.py, lines 616-620)

    The modes [effect_size], [power] and [sample_size] themselves belong
    to the [pypowerup] library, which the repository only imports; where a
    property is about them, they are modelled from the specification, and
    the definition says so.

    Around the three functions, the development covers the tables
    [DESIGNS] and [PARAMS], the part of [main] that orders the inputs of
    a mode, collects them and computes the values shown with a result
    (app.py, lines 1161-1217 and 1326-1331), and the text helpers of
    [export_to_latex] (app.py, lines 809-823).

    Conventions of the embedding.

    - The counts [n], [J], [K], [L], [T], [g] are Python integers
      (every one of them is declared ["is_int": True] in [PARAMS]); they
      are unbounded, hence [Z].
    - A parameter dictionary is a [gmap string Z]; [dict.get(key, default)]
      is a lookup with a default.
    - Python floats are idealised as real numbers: rounding and NaN are
      outside the model.  [float('inf')] is a value of its own, and the
      overflow of [rho_ts ** 2] in [estimate_design_effect] is an
      [OverflowError].
    - A raised exception is a value of [outcome].
    - SciPy's [stats.t.ppf] is a parameter of the development. *)

From Stdlib Require Import ZArith QArith String Ascii List Reals Lra Lia.
From stdpp Require Import gmap strings.

Local Open Scope Z_scope.
Local Open Scope string_scope.

(** ** Degrees of freedom *)

Module Df.

(** [params.get(key, default)] *)
Definition get (params : gmap string Z) (key : string) (dflt : Z) : Z :=
  default dflt (params !! key).

(** The entries of the dictionary literal [df_formulas], in source order. *)
Definition df_entries (n J K L g T : Z) : list (string * Z) :=
  [ ("ira",      n - g - 2);
    ("bira2_1c", J * (n - 1) - g - 1);
    ("bira2_1f", J * (n - 2) - g);
    ("bira2_1r", J - g - 1);
    ("bira3_1r", K - g - 1);
    ("bira4_1r", L - g - 1);
    ("cra2_2r",  J - g - 2);
    ("cra3_3r",  K - g - 2);
    ("cra4_4r",  L - g - 2);
    ("bcra3_2f", K * (J - 2) - g);
    ("bcra3_2r", K - g - 1);
    ("bcra4_2r", L - g - 1);
    ("bcra4_3f", L * (K - 2) - g);
    ("bcra4_3r", L - g - 1);
    ("rd2_1f",   J * (n - 2) - g);
    ("rd2_1r",   J - g - 1);
    ("rdc_2r",   J - g - 2);
    ("rdc_3r",   K - g - 2);
    ("rd3_2f",   K * (J - 1) - g);
    ("its",      K * T - g - 1) ].

(** A Python dictionary literal: the entries are stored from left to right,
    a later entry replacing an earlier one with the same key. *)
Definition dict_literal (entries : list (string * Z)) : gmap string Z :=
  foldl (fun d kv => <[kv.1 := kv.2]> d) ∅ entries.

Definition df_formulas (n J K L g T : Z) : gmap string Z :=
  dict_literal (df_entries n J K L g T).

Definition get_df_for_design (design_id : string) (params : gmap string Z) : Z :=
  let n := get params "n" 30 in
  let J := get params "J" 10 in
  let K := get params "K" 10 in
  let L := get params "L" 10 in
  let g := get params "g" 0 in
  let T := get params "T" 5 in
  Z.max 1 (default 10 (df_formulas n J K L g T !! design_id)).

(** The keys of [df_formulas]. *)
Definition df_keys : list string := (df_entries 0 0 0 0 0 0).*1.

(** The fallback values of the six [params.get] calls, as a dictionary. *)
Definition fallbacks : gmap string Z :=
  {[ "n" := 30; "J" := 10; "K" := 10; "L" := 10; "g" := 0; "T" := 5 ]}.

(** The designs of [DESIGNS] (app.py, lines 113-300), by their ["name"]. *)
Inductive design :=
  | IRA
  | BIRA2_1c | BIRA2_1f | BIRA2_1r | BIRA3_1r | BIRA4_1r
  | CRA2_2r | CRA3_3r | CRA4_4r
  | BCRA3_2f | BCRA3_2r | BCRA4_2r | BCRA4_3f | BCRA4_3r
  | RD2_1f | RD2_1r | RDC_2r | RDC_3r | RD3_2f
  | ITS.

(** The key of a design in [DESIGNS]: the identifier the resolver is
    called with. *)
Definition design_id (d : design) : string :=
  match d with
  | IRA => "ira"
  | BIRA2_1c => "bira2_1c" | BIRA2_1f => "bira2_1f" | BIRA2_1r => "bira2_1r"
  | BIRA3_1r => "bira3_1r" | BIRA4_1r => "bira4_1r"
  | CRA2_2r => "cra2_2r" | CRA3_3r => "cra3_3r" | CRA4_4r => "cra4_4r"
  | BCRA3_2f => "bcra3_2f" | BCRA3_2r => "bcra3_2r" | BCRA4_2r => "bcra4_2r"
  | BCRA4_3f => "bcra4_3f" | BCRA4_3r => "bcra4_3r"
  | RD2_1f => "rd2_1f" | RD2_1r => "rd2_1r" | RDC_2r => "rdc_2r"
  | RDC_3r => "rdc_3r" | RD3_2f => "rd3_2f"
  | ITS => "its"
  end.

Definition all_designs : list design :=
  [ IRA; BIRA2_1c; BIRA2_1f; BIRA2_1r; BIRA3_1r; BIRA4_1r;
    CRA2_2r; CRA3_3r; CRA4_4r;
    BCRA3_2f; BCRA3_2r; BCRA4_2r; BCRA4_3f; BCRA4_3r;
    RD2_1f; RD2_1r; RDC_2r; RDC_3r; RD3_2f; ITS ].

(** The table of the specification (section 4.2), written from its words:
    the formula listed for each design, before the floor at 1. *)
Definition listed_df (d : design) (n J K L T g : Z) : Z :=
  match d with
  | IRA      => n - g - 2
  | BIRA2_1c => J * (n - 1) - g - 1
  | BIRA2_1f => J * (n - 2) - g
  | BIRA2_1r => J - g - 1
  | BIRA3_1r => K - g - 1
  | BIRA4_1r => L - g - 1
  | CRA2_2r  => J - g - 2
  | CRA3_3r  => K - g - 2
  | CRA4_4r  => L - g - 2
  | BCRA3_2f => K * (J - 2) - g
  | BCRA3_2r => K - g - 1
  | BCRA4_2r => L - g - 1
  | BCRA4_3f => L * (K - 2) - g
  | BCRA4_3r => L - g - 1
  | RD2_1f   => J * (n - 2) - g
  | RD2_1r   => J - g - 1
  | RDC_2r   => J - g - 2
  | RDC_3r   => K - g - 2
  | RD3_2f   => K * (J - 1) - g
  | ITS      => K * T - g - 1
  end.

End Df.

(** ** Outcomes of a call *)

(** The failures of a call: Python's [ZeroDivisionError] and
    [OverflowError], and the non-convergence of a root-finder (error kind
    (c) of the specification, section 7). *)
Inductive exn :=
  | ZeroDivisionError
  | OverflowError
  | NonConvergence.

Inductive outcome (A : Type) :=
  | Returns (a : A)
  | Raises (e : exn).
Arguments Returns {A} a.
Arguments Raises {A} e.

(** A Python float, idealised: a real number or [float('inf')]. *)
Inductive pyfloat :=
  | Finite (x : R)
  | Infinity.

(** [x / y] on floats: a zero divisor raises [ZeroDivisionError]. *)
Definition truediv (x y : R) : outcome R :=
  if Req_dec_T y 0 then Raises ZeroDivisionError else Returns (x / y)%R.

(** ** The multiplier *)

Module Multiplier.
Local Open Scope R_scope.

Section WithQuantile.

(** [stats.t.ppf(q, df)] of SciPy: the quantile function of the central
    Student-t distribution.  It is a library function, taken as given. *)
Variable ppf : R -> Z -> R.

Definition calculate_multiplier (alpha power : R) (df : Z) (two_tailed : Z)
  : R * R * R :=
  let alpha := if (two_tailed =? 2)%Z then alpha / 2 else alpha in
  let t1 := ppf (1 - alpha) df in
  let t2 := Rabs (ppf (1 - power) df) in
  let m := if Rge_dec power 0.5 then t1 + t2 else t1 - t2 in
  (m, t1, t2).

(** The first component of the triple: the multiplier M itself. *)
Definition multiplier (alpha power : R) (df : Z) (two_tailed : Z) : R :=
  (calculate_multiplier alpha power df two_tailed).1.1.

End WithQuantile.
End Multiplier.

(** ** Sample size by design formula *)

Module SampleSize.
Import Multiplier.
Local Open Scope R_scope.

(** The quantile function of the Student-t distribution with two degrees
    of freedom, which has a closed form: [t = (2q - 1) / sqrt (2q (1 - q))].
    It stands for [ppf] where a concrete quantile function is needed. *)
Definition t2_ppf (q : R) (df : Z) : R :=
  (2 * q - 1) / sqrt (2 * q * (1 - q)).

Section Design.

Variable ppf : R -> Z -> R.
Variables alpha power : R.

(** The data of one design, as functions of the sample-size parameter [s]
    the design solves for: its degrees of freedom, its design factor and
    its effective sample size; the explained variance and the proportion
    allocated to treatment; the least admissible [s]. *)
Variable df_of : Z -> Z.
Variable design_factor : Z -> R.
Variable effective_n : Z -> R.
Variables r2 p : R.
Variable s_min : Z.

(** Modelled from the spec: the MDES formula of a design, absent from the
    sources (it is part of the pypowerup library).  Section 4.3 gives it as
    [M(alpha, power, df, tails) * sqrt (design_factor * (1 - R2) /
    (P (1 - P) * effective_n))], with M the multiplier of section 4.1. *)
Definition mdes (tails : Z) (s : Z) : R :=
  multiplier ppf alpha power (df_of s) tails
  * sqrt (design_factor s * (1 - r2) / (p * (1 - p) * effective_n s)).

(** Modelled from the spec: the result of [sample_size], absent from the
    sources.  Section 4.4 makes it the smallest integer meeting the target
    effect size [es], and section 6 an integer at or above the design
    minimum. *)
Definition is_sample_size (tails : Z) (es : R) (s : Z) : Prop :=
  (s_min <= s)%Z
  /\ mdes tails s <= es
  /\ forall s' : Z, (s_min <= s' < s)%Z -> es < mdes tails s'.

End Design.

(** The individual-random-assignment design: [df = n - g - 2] and
    [MDES = M * sqrt (1 / (P (1 - P) n) * (1 - R2_1))]
    (tests/test_parity.py, lines 49-50). *)
Definition ira_df (g : Z) (n : Z) : Z :=
  Df.get_df_for_design "ira" {[ "n" := n; "g" := g ]}.


(** [n] is the IRA sample size for the target [es]; the least admissible
    [n] is [g + 3], the first with a positive [n - g - 2]. *)
Definition ira_is_sample_size (ppf : R -> Z -> R) (alpha power r21 p : R)
    (g : Z) (tails : Z) (es : R) (n : Z) : Prop :=
  is_sample_size ppf alpha power (ira_df g) (fun _ => 1) IZR r21 p (g + 3)
    tails es n.

End SampleSize.

(** ** Power by root-finding *)

Module Power.
Import Multiplier SampleSize.
Local Open Scope R_scope.

(** Modelled from the spec: the root-finder of the power mode, absent from
    the sources.  Sections 4.4 and 5 describe a bounded bisection over an
    interval, against [g = 0], with an iteration cap; running out of
    iterations is reported as a failure.  [g] is taken to be increasing
    (the MDES grows with the power): a negative [g] at the midpoint moves
    the search to the upper half.  [tol] is the residual accepted at the
    returned point. *)
Fixpoint bisect (g : R -> R) (tol : R) (cap : nat) (lo hi : R) : outcome R :=
  match cap with
  | O => Raises NonConvergence
  | S cap' =>
      let mid := (lo + hi) / 2 in
      if Rle_dec (Rabs (g mid)) tol then Returns mid
      else if Rlt_dec (g mid) 0 then bisect g tol cap' mid hi
      else bisect g tol cap' lo mid
  end.

Section Design.

Variable ppf : R -> Z -> R.
Variable alpha : R.
Variable df_of : Z -> Z.
Variable design_factor : Z -> R.
Variable effective_n : Z -> R.
Variables r2 p : R.

(** Modelled from the spec: [power(design, es, ...)], absent from the
    sources (it is part of the pypowerup library).  Section 4.4: given the
    effect size [es] and the sample-size parameter [s], the power is the
    root of [mdes_formula(power = pi) - es] over the open interval
    [(alpha, 1)]. *)
Definition power (tails : Z) (s : Z) (es : R) (tol : R) (cap : nat)
  : outcome R :=
  bisect
    (fun pi => mdes ppf alpha pi df_of design_factor effective_n r2 p tails s
               - es)
    tol cap alpha 1.

End Design.


End Power.

(** ** The design-effect helper *)

Module DesignEffect.
Local Open Scope R_scope.

(** The least size of a float whose square leaves the range of a double:
    the largest double is below [2 ^ 1024], and the square of the largest
    double below [2 ^ 512] is still in range. *)
Definition overflow_bound : R := 2 ^ 512.

(** [x ** 2] on a finite float: a result outside the range of a double
    raises [OverflowError].  Below the bound the square is the real one. *)
Definition square (x : R) : outcome R :=
  if Rle_dec overflow_bound (Rabs x) then Raises OverflowError
  else Returns (x ^ 2).

(** [estimate_design_effect] (app.py, lines 616-620), on a finite float. *)
Definition estimate_design_effect (rho_ts : R) : outcome pyfloat :=
  if Rge_dec rho_ts 1 then Returns Infinity
  else
    match square rho_ts with
    | Raises e => Raises e
    | Returns rho_ts_2 =>
        match truediv 1 (1 - rho_ts_2) with
        | Returns q => Returns (Finite q)
        | Raises e => Raises e
        end
    end.

(** A float is positive: [0 < x]. *)
Definition positive (x : pyfloat) : Prop :=
  match x with
  | Finite x => 0 < x
  | Infinity => True
  end.

(** A float is negative: [x < 0]. *)
Definition negative (x : pyfloat) : Prop :=
  match x with
  | Finite x => x < 0
  | Infinity => False
  end.

(** [x] shows as the decimal [d] when printed with four decimal places
    (the application prints the estimate with ["{est_de:.4f}"]). *)
Definition shows_4dp (x : pyfloat) (d : R) : Prop :=
  match x with
  | Finite x => d - 0.00005 <= x < d + 0.00005
  | Infinity => False
  end.

End DesignEffect.

(** ** The input form and the computed values of [main] *)

Module Form.
Import Df Multiplier.

(** An entry of [DESIGNS] (app.py, lines 113-301).  ["full_name"] is a
    display text and is left out; an entry without ["is_its"] reads as
    [False], as [design.get("is_its", False)] does. *)
Record design_info := {
  number : string;
  name : string;
  category : string;
  params_order : list string;
  sample_size_for : string;
  has_rho_ts : bool;
  is_its : bool
}.

Definition DESIGNS : list (string * design_info) :=
  [ ("ira",
     {| number := "1.0"; name := "IRA";
      category := "Individual Random Assignment Designs";
      params_order := ["alpha"; "two_tailed"; "power"; "p"; "r21"; "g"; "n"];
      sample_size_for := "n"; has_rho_ts := false; is_its := false |});
    ("bira2_1c",
     {| number := "2.1"; name := "BIRA2_1c";
      category := "Blocked Individual Random Assignment Designs";
      params_order := ["alpha"; "two_tailed"; "power"; "p"; "r21"; "g"; "n";
          "J"];
      sample_size_for := "J"; has_rho_ts := false; is_its := false |});
    ("bira2_1f",
     {| number := "2.2"; name := "BIRA2_1f";
      category := "Blocked Individual Random Assignment Designs";
      params_order := ["alpha"; "two_tailed"; "power"; "p"; "r21"; "g"; "n";
          "J"];
      sample_size_for := "J"; has_rho_ts := false; is_its := false |});
    ("bira2_1r",
     {| number := "2.3"; name := "BIRA2_1r";
      category := "Blocked Individual Random Assignment Designs";
      params_order := ["alpha"; "two_tailed"; "power"; "rho2"; "omega2";
          "p"; "r21"; "r2t2"; "g"; "n"; "J"];
      sample_size_for := "J"; has_rho_ts := false; is_its := false |});
    ("bira3_1r",
     {| number := "2.4"; name := "BIRA3_1r";
      category := "Blocked Individual Random Assignment Designs";
      params_order := ["alpha"; "two_tailed"; "power"; "rho3"; "rho2";
          "omega3"; "omega2"; "p"; "r21"; "r2t2"; "r2t3"; "g"; "n"; "J"; "K"];
      sample_size_for := "K"; has_rho_ts := false; is_its := false |});
    ("bira4_1r",
     {| number := "2.5"; name := "BIRA4_1r";
      category := "Blocked Individual Random Assignment Designs";
      params_order := ["alpha"; "two_tailed"; "power"; "rho4"; "rho3";
          "rho2"; "omega4"; "omega3"; "omega2"; "p"; "r21"; "r2t2"; "r2t3";
          "r2t4"; "g"; "n"; "J"; "K"; "L"];
      sample_size_for := "L"; has_rho_ts := false; is_its := false |});
    ("cra2_2r",
     {| number := "3.1"; name := "CRA2_2r";
      category := "Simple Cluster Random Assignment Designs";
      params_order := ["alpha"; "two_tailed"; "power"; "rho2"; "p"; "r21";
          "r22"; "g"; "n"; "J"];
      sample_size_for := "J"; has_rho_ts := false; is_its := false |});
    ("cra3_3r",
     {| number := "3.2"; name := "CRA3_3r";
      category := "Simple Cluster Random Assignment Designs";
      params_order := ["alpha"; "two_tailed"; "power"; "rho3"; "rho2"; "p";
          "r21"; "r22"; "r23"; "g"; "n"; "J"; "K"];
      sample_size_for := "K"; has_rho_ts := false; is_its := false |});
    ("cra4_4r",
     {| number := "3.3"; name := "CRA4_4r";
      category := "Simple Cluster Random Assignment Designs";
      params_order := ["alpha"; "two_tailed"; "power"; "rho4"; "rho3";
          "rho2"; "p"; "r21"; "r22"; "r23"; "r24"; "g"; "n"; "J"; "K"; "L"];
      sample_size_for := "L"; has_rho_ts := false; is_its := false |});
    ("bcra3_2f",
     {| number := "4.1"; name := "BCRA3_2f";
      category := "Blocked Cluster Random Assignment Designs";
      params_order := ["alpha"; "two_tailed"; "power"; "rho2"; "p"; "r21";
          "r22"; "g"; "n"; "J"; "K"];
      sample_size_for := "K"; has_rho_ts := false; is_its := false |});
    ("bcra3_2r",
     {| number := "4.2"; name := "BCRA3_2r";
      category := "Blocked Cluster Random Assignment Designs";
      params_order := ["alpha"; "two_tailed"; "power"; "rho3"; "rho2";
          "omega3"; "p"; "r21"; "r22"; "r2t3"; "g"; "n"; "J"; "K"];
      sample_size_for := "K"; has_rho_ts := false; is_its := false |});
    ("bcra4_2r",
     {| number := "4.3"; name := "BCRA4_2r";
      category := "Blocked Cluster Random Assignment Designs";
      params_order := ["alpha"; "two_tailed"; "power"; "rho4"; "rho3";
          "rho2"; "omega4"; "omega3"; "p"; "r21"; "r22"; "r2t3"; "r2t4";
          "g"; "n"; "J"; "K"; "L"];
      sample_size_for := "L"; has_rho_ts := false; is_its := false |});
    ("bcra4_3f",
     {| number := "4.4"; name := "BCRA4_3f";
      category := "Blocked Cluster Random Assignment Designs";
      params_order := ["alpha"; "two_tailed"; "power"; "rho3"; "rho2"; "p";
          "r21"; "r22"; "r23"; "g"; "n"; "J"; "K"; "L"];
      sample_size_for := "L"; has_rho_ts := false; is_its := false |});
    ("bcra4_3r",
     {| number := "4.5"; name := "BCRA4_3r";
      category := "Blocked Cluster Random Assignment Designs";
      params_order := ["alpha"; "two_tailed"; "power"; "rho4"; "rho3";
          "rho2"; "omega4"; "p"; "r21"; "r22"; "r23"; "r2t4"; "g"; "n"; "J";
          "K"; "L"];
      sample_size_for := "L"; has_rho_ts := false; is_its := false |});
    ("rd2_1f",
     {| number := "5.1"; name := "RD2_1f";
      category := "Regression Discontinuity Designs";
      params_order := ["alpha"; "two_tailed"; "power"; "p"; "r21"; "g"; "n";
          "J"; "design_effect"];
      sample_size_for := "J"; has_rho_ts := true; is_its := false |});
    ("rd2_1r",
     {| number := "5.2"; name := "RD2_1r";
      category := "Regression Discontinuity Designs";
      params_order := ["alpha"; "two_tailed"; "power"; "rho2"; "omega2";
          "p"; "r21"; "r2t2"; "g"; "n"; "J"; "design_effect"];
      sample_size_for := "J"; has_rho_ts := true; is_its := false |});
    ("rdc_2r",
     {| number := "5.3"; name := "RDC_2r";
      category := "Regression Discontinuity Designs";
      params_order := ["alpha"; "two_tailed"; "power"; "rho2"; "p"; "r21";
          "r22"; "g"; "n"; "J"; "design_effect"];
      sample_size_for := "J"; has_rho_ts := true; is_its := false |});
    ("rdc_3r",
     {| number := "5.4"; name := "RDC_3r";
      category := "Regression Discontinuity Designs";
      params_order := ["alpha"; "two_tailed"; "power"; "rho3"; "rho2"; "p";
          "r21"; "r22"; "r23"; "g"; "n"; "J"; "K"; "design_effect"];
      sample_size_for := "K"; has_rho_ts := true; is_its := false |});
    ("rd3_2f",
     {| number := "5.5"; name := "RD3_2f";
      category := "Regression Discontinuity Designs";
      params_order := ["alpha"; "two_tailed"; "power"; "rho2"; "p"; "r21";
          "r22"; "g"; "n"; "J"; "K"; "design_effect"];
      sample_size_for := "K"; has_rho_ts := true; is_its := false |});
    ("its",
     {| number := "6.0"; name := "ITS";
      category := "Interrupted Time-Series Designs";
      params_order := ["alpha"; "two_tailed"; "power"; "rho2"; "T"; "n";
          "K"; "r22"; "tf"; "g"; "q"];
      sample_size_for := "K"; has_rho_ts := false; is_its := true |}) ].

(** The numeric fields of an entry of [PARAMS] (app.py, lines 304-566);
    labels, comments and formats are display texts.  A missing ["is_int"]
    reads as [False], as [param_def.get("is_int")] does. *)
Record param_def := {
  p_default : Q;
  p_min : Q;
  p_max : Q;
  p_step : Q;
  is_int : bool
}.

Definition PARAMS : list (string * param_def) :=
  [ ("alpha",
     {| p_default := 0.05; p_min := 0.001; p_max := 0.20; p_step := 0.01;
        is_int := false |});
    ("two_tailed",
     {| p_default := 2; p_min := 1; p_max := 2; p_step := 1;
        is_int := true |});
    ("power",
     {| p_default := 0.80; p_min := 0.10; p_max := 0.99; p_step := 0.01;
        is_int := false |});
    ("es",
     {| p_default := 0.25; p_min := 0.01; p_max := 2.0; p_step := 0.01;
        is_int := false |});
    ("p",
     {| p_default := 0.50; p_min := 0.01; p_max := 0.99; p_step := 0.01;
        is_int := false |});
    ("n",
     {| p_default := 55; p_min := 1; p_max := 100000; p_step := 1;
        is_int := true |});
    ("J",
     {| p_default := 20; p_min := 2; p_max := 10000; p_step := 1;
        is_int := true |});
    ("K",
     {| p_default := 20; p_min := 2; p_max := 10000; p_step := 1;
        is_int := true |});
    ("L",
     {| p_default := 20; p_min := 2; p_max := 1000; p_step := 1;
        is_int := true |});
    ("g",
     {| p_default := 1; p_min := 0; p_max := 50; p_step := 1;
        is_int := true |});
    ("r21",
     {| p_default := 0.50; p_min := 0.0; p_max := 0.99; p_step := 0.01;
        is_int := false |});
    ("r22",
     {| p_default := 0.0; p_min := 0.0; p_max := 0.99; p_step := 0.01;
        is_int := false |});
    ("r23",
     {| p_default := 0.0; p_min := 0.0; p_max := 0.99; p_step := 0.01;
        is_int := false |});
    ("r24",
     {| p_default := 0.0; p_min := 0.0; p_max := 0.99; p_step := 0.01;
        is_int := false |});
    ("rho2",
     {| p_default := 0.15; p_min := 0.0; p_max := 0.99; p_step := 0.01;
        is_int := false |});
    ("rho3",
     {| p_default := 0.15; p_min := 0.0; p_max := 0.99; p_step := 0.01;
        is_int := false |});
    ("rho4",
     {| p_default := 0.05; p_min := 0.0; p_max := 0.99; p_step := 0.01;
        is_int := false |});
    ("omega2",
     {| p_default := 0.10; p_min := 0.0; p_max := 1.0; p_step := 0.01;
        is_int := false |});
    ("omega3",
     {| p_default := 0.50; p_min := 0.0; p_max := 1.0; p_step := 0.01;
        is_int := false |});
    ("omega4",
     {| p_default := 0.50; p_min := 0.0; p_max := 1.0; p_step := 0.01;
        is_int := false |});
    ("r2t2",
     {| p_default := 0.0; p_min := 0.0; p_max := 0.99; p_step := 0.01;
        is_int := false |});
    ("r2t3",
     {| p_default := 0.0; p_min := 0.0; p_max := 0.99; p_step := 0.01;
        is_int := false |});
    ("r2t4",
     {| p_default := 0.0; p_min := 0.0; p_max := 0.99; p_step := 0.01;
        is_int := false |});
    ("design_effect",
     {| p_default := 2.75; p_min := 1.0; p_max := 10.0; p_step := 0.01;
        is_int := false |});
    ("T",
     {| p_default := 5; p_min := 2; p_max := 50; p_step := 1;
        is_int := true |});
    ("tf",
     {| p_default := 2; p_min := 0; p_max := 50; p_step := 1;
        is_int := true |});
    ("q",
     {| p_default := 2; p_min := 1; p_max := 100; p_step := 1;
        is_int := true |});
    ("rho_ts",
     {| p_default := 0.80; p_min := 0.01; p_max := 0.99; p_step := 0.01;
        is_int := false |}) ]%Q.

(** The categories of the sidebar selector (app.py, lines 1103-1110). *)
Definition categories : list string :=
  [ "Individual Random Assignment Designs";
    "Blocked Individual Random Assignment Designs";
    "Simple Cluster Random Assignment Designs";
    "Blocked Cluster Random Assignment Designs";
    "Regression Discontinuity Designs";
    "Interrupted Time-Series Designs" ].

(** A dictionary literal, read by key: the entries are stored from left to
    right, a later entry replacing an earlier one with the same key. *)
Definition dict_of {V : Type} (entries : list (string * V)) : gmap string V :=
  foldl (fun d kv => <[kv.1 := kv.2]> d) ∅ entries.

(** [str.lower()] and [str.upper()] on ASCII text. *)
Definition lower_ascii (c : ascii) : ascii :=
  let n := N_of_ascii c in
  if ((65 <=? n) && (n <=? 90))%N then ascii_of_N (n + 32) else c.

Definition upper_ascii (c : ascii) : ascii :=
  let n := N_of_ascii c in
  if ((97 <=? n) && (n <=? 122))%N then ascii_of_N (n - 32) else c.

Fixpoint lower (s : string) : string :=
  match s with
  | EmptyString => EmptyString
  | String c s' => String (lower_ascii c) (lower s')
  end.

Fixpoint upper (s : string) : string :=
  match s with
  | EmptyString => EmptyString
  | String c s' => String (upper_ascii c) (upper s')
  end.

(** The three values of the radio button [calc_mode]:
    ["MDES (Effect Size)"], ["Sample Size"] and ["Power"]. *)
Inductive calc_mode :=
  | Mode_MDES
  | Mode_SampleSize
  | Mode_Power.

(** [l.remove(x)]: the first occurrence of [x] is dropped (the code calls
    it under [x in l] only). *)
Fixpoint pyremove (x : string) (l : list string) : list string :=
  match l with
  | [] => []
  | y :: l' => if decide (y = x) then l' else y :: pyremove x l'
  end.

(** [l.index(x)]: the position of the first occurrence of [x]. *)
Fixpoint pyindex (x : string) (l : list string) : option nat :=
  match l with
  | [] => None
  | y :: l' => if decide (y = x) then Some 0%nat else S <$> pyindex x l'
  end.

(** [l.insert(i, x)]: [x] goes before position [i], or to the end when
    [i] is past it. *)
Definition pyinsert (i : nat) (x : string) (l : list string) : list string :=
  take i l ++ x :: drop i l.

(** The loop that looks for ["power"] (app.py, lines 1169-1173):
    [insert_idx] stays 0 unless some [p] at position [i] is ["power"],
    and the first such [i] sets it to [i + 1]. *)
Fixpoint find_insert_idx (i : nat) (l : list string) : nat :=
  match l with
  | [] => 0%nat
  | p :: l' => if decide (p = "power") then S i else find_insert_idx (S i) l'
  end.

(** The inputs the form shows, in order (app.py, lines 1161-1181). *)
Definition param_order (mode : calc_mode) (design : design_info)
  : list string :=
  let param_order := params_order design in
  match mode with
  | Mode_MDES => param_order
  | Mode_SampleSize =>
      let ss_param := sample_size_for design in
      let param_order :=
        if bool_decide (ss_param ∈ param_order)
        then pyremove ss_param param_order else param_order in
      pyinsert (find_insert_idx 0 param_order) "es" param_order
  | Mode_Power =>
      if bool_decide ("power" ∈ param_order) then
        match pyindex "power" param_order with
        | Some power_idx =>
            pyinsert power_idx "es" (pyremove "power" param_order)
        | None => param_order
        end
      else param_order
  end.

(** [params_collected]: every integer input ([is_int]) holds a Python int
    and every other input a float, so the dictionary is kept as its two
    halves. *)
Record collected := {
  ints : gmap string Z;
  floats : gmap string R
}.

(** One round of the input loop (app.py, lines 1184-1217): a name that is
    not a key of [PARAMS] is skipped; otherwise the value of its
    [st.number_input] is stored under the name.  [input_int] and
    [input_float] give the value the user entered for each name. *)
Definition collect_step (input_int : string -> Z) (input_float : string -> R)
    (params_collected : collected) (param_name : string) : collected :=
  match dict_of PARAMS !! param_name with
  | None => params_collected
  | Some param_def =>
      if is_int param_def then
        {| ints := <[param_name := input_int param_name]>
                     (ints params_collected);
           floats := floats params_collected |}
      else
        {| ints := ints params_collected;
           floats := <[param_name := input_float param_name]>
                       (floats params_collected) |}
  end.

Definition collect_params (input_int : string -> Z)
    (input_float : string -> R) (param_order : list string) : collected :=
  foldl (collect_step input_int input_float)
        {| ints := ∅; floats := ∅ |} param_order.

(** The computed values shown with a result (app.py, lines 1326-1331):
    the triple of [calculate_multiplier] and the degrees of freedom. *)
Definition computed_values (ppf : R -> Z -> R) (selected_design : string)
    (params_collected : collected) : (R * R * R) * Z :=
  let df := get_df_for_design selected_design (ints params_collected) in
  let alpha_val := default 0.05%R (floats params_collected !! "alpha") in
  let power_val := default 0.8%R (floats params_collected !! "power") in
  let two_tailed_int := get (ints params_collected) "two_tailed" 2 in
  (calculate_multiplier ppf alpha_val power_val df two_tailed_int, df).

(** [result_label] and [result_desc] of a calculation (app.py, lines
    1299-1322). *)
Definition result_label (mode : calc_mode) (design : design_info) : string :=
  match mode with
  | Mode_MDES => "MDES"
  | Mode_SampleSize => upper (sample_size_for design) ++ " (Sample Size)"
  | Mode_Power => "Power"
  end.

Definition result_desc (mode : calc_mode) (design : design_info) : string :=
  match mode with
  | Mode_MDES => "Minimum Detectable Effect Size"
  | Mode_SampleSize =>
      "Minimum Required Sample Size (" ++ upper (sample_size_for design) ++ ")"
  | Mode_Power => "Statistical Power"
  end.

(** Equality of entries is decidable. *)
#[global] Instance design_info_eq_dec : EqDecision design_info.
Proof. solve_decision. Defined.

(** What [main] relies on in an entry of [DESIGNS] with key [kv.1]: the
    order has no duplicate, names keys of [PARAMS] only, holds the four
    inputs every design has and the count the design solves for, which is
    one of n, J, K, L, and never the effect size; the category is one of
    the selector; the name, in lower case, is the key. *)
Definition design_ok (kv : string * design_info) : Prop :=
  let design := kv.2 in
  NoDup (params_order design)
  /\ "alpha" ∈ params_order design
  /\ "two_tailed" ∈ params_order design
  /\ "power" ∈ params_order design
  /\ "g" ∈ params_order design
  /\ ("es" ∉ params_order design)
  /\ sample_size_for design ∈ params_order design
  /\ sample_size_for design ∈ ["n"; "J"; "K"; "L"]
  /\ Forall (fun p => is_Some (dict_of PARAMS !! p)) (params_order design)
  /\ category design ∈ categories
  /\ lower (name design) = kv.1.

#[global] Instance design_ok_dec kv : Decision (design_ok kv).
Proof. unfold design_ok. apply _. Defined.

(** The default of an input lies between its bounds, and its step is
    positive. *)
Definition in_range (d : param_def) : Prop :=
  (p_min d <= p_default d)%Q /\ (p_default d <= p_max d)%Q
  /\ (0 < p_step d)%Q.

(** The six keys [get_df_for_design] reads. *)
Definition count_keys : list string := ["n"; "J"; "K"; "L"; "g"; "T"].

(** The count a design solves for, read from [DESIGNS] by the design's
    identifier. *)
Definition solved_count (d : design) : string :=
  default "" (sample_size_for <$> dict_of DESIGNS !! design_id d).

(** What the input loop stores under a name that is in the order: the
    integer, or the float, the user entered, by the [is_int] of the name
    in [PARAMS]; nothing under a name that [PARAMS] does not have. *)
Definition int_input (input_int : string -> Z) (k : string) : option Z :=
  match dict_of PARAMS !! k with
  | Some param_def => if is_int param_def then Some (input_int k) else None
  | None => None
  end.

Definition float_input (input_float : string -> R) (k : string) : option R :=
  match dict_of PARAMS !! k with
  | Some param_def => if is_int param_def then None else Some (input_float k)
  | None => None
  end.

End Form.

(** ** The exports *)

Module Exports.

(** [needle in hay] on strings: [needle] occurs in [hay]. *)
Fixpoint contains (needle hay : string) : bool :=
  String.prefix needle hay
  || match hay with
     | EmptyString => false
     | String _ hay' => contains needle hay'
     end.

(** The description of the result in the LaTeX table, chosen from the
    result's label (app.py, lines 809-818). *)
Definition result_full (result_type : string) : string :=
  if contains "MDES" result_type || contains "Effect" result_type then
    "Minimum Detectable Effect Size"
  else if contains "Sample" result_type || contains "Size" result_type then
    "Minimum Required Sample Size"
  else
    "Statistical Power".

(** [s.rstrip(chars)]: the longest suffix of [s] made of characters of
    [chars] is dropped. *)
Fixpoint rstrip (chars : list ascii) (s : string) : string :=
  match s with
  | EmptyString => EmptyString
  | String c s' =>
      match rstrip chars s' with
      | EmptyString =>
          if bool_decide (c ∈ chars) then EmptyString else String c EmptyString
      | rest => String c rest
      end
  end.

(** What [fmt_val] does to a float once it is printed with four decimals
    (app.py, line 822): [formatted.rstrip("0").rstrip(".")], where
    [formatted] is the text of [f"{v:.4f}"]. *)
Definition strip_decimals (formatted : string) : string :=
  rstrip ["."%char] (rstrip ["0"%char] formatted).

End Exports.

(** * Properties *)

(** ** The degrees-of-freedom resolver *)

Module DfFacts.
Import Df.

(** *** Dictionary literals *)

Lemma dict_literal_snoc entries k v :
  dict_literal (entries ++ [(k, v)]) = <[k := v]> (dict_literal entries).
Proof. unfold dict_literal. by rewrite foldl_app. Qed.

Lemma dict_literal_lookup_None entries k :
  k ∉ entries.*1 -> dict_literal entries !! k = None.
Proof.
  induction entries as [|[k' v'] entries IH] using rev_ind; intros Hk.
  - apply lookup_empty.
  - rewrite dict_literal_snoc. rewrite fmap_app in Hk. simpl in Hk.
    apply not_elem_of_app in Hk as [Hk Hk'].
    rewrite lookup_insert_ne; [by apply IH|].
    intros ->. apply Hk'. by left.
Qed.

Lemma dict_literal_lookup_Some entries k v :
  NoDup entries.*1 -> (k, v) ∈ entries -> dict_literal entries !! k = Some v.
Proof.
  induction entries as [|[k' v'] entries IH] using rev_ind; intros Hnd Hin.
  - by apply elem_of_nil in Hin.
  - rewrite dict_literal_snoc.
    rewrite fmap_app in Hnd. apply NoDup_app in Hnd as (Hnd & Hfresh & _).
    apply elem_of_app in Hin as [Hin|Hin].
    + rewrite lookup_insert_ne; [by apply IH|].
      intros ->. apply (Hfresh k); [|by left].
      apply list_elem_of_fmap. by exists (k, v).
    + apply list_elem_of_singleton in Hin. injection Hin as -> ->.
      apply lookup_insert_eq.
Qed.

(** *** The table *)

Lemma df_entries_keys n J K L g T : (df_entries n J K L g T).*1 = df_keys.
Proof. reflexivity. Qed.

Lemma df_keys_NoDup : NoDup df_keys.
Proof. apply (bool_decide_unpack _). vm_compute. exact I. Qed.

Lemma df_keys_length : length df_keys = 20%nat.
Proof. reflexivity. Qed.

(** The keys of the table are the identifiers of the twenty designs. *)
Lemma df_keys_designs : df_keys = design_id <$> all_designs.
Proof. reflexivity. Qed.

Lemma all_designs_complete d : d ∈ all_designs.
Proof. destruct d; unfold all_designs; set_solver. Qed.

Lemma design_id_key d : design_id d ∈ df_keys.
Proof.
  rewrite df_keys_designs. apply list_elem_of_fmap.
  exists d. split; [done|apply all_designs_complete].
Qed.

(** Each design finds its listed formula in the table of the code. *)
Lemma df_formulas_listed d n J K L T g :
  df_formulas n J K L g T !! design_id d = Some (listed_df d n J K L T g).
Proof.
  unfold df_formulas. apply dict_literal_lookup_Some.
  - rewrite df_entries_keys. apply df_keys_NoDup.
  - destruct d; unfold df_entries; simpl; set_solver.
Qed.

Lemma df_formulas_absent design_id n J K L T g :
  design_id ∉ df_keys -> df_formulas n J K L g T !! design_id = None.
Proof.
  intros Hid. unfold df_formulas. apply dict_literal_lookup_None.
  by rewrite df_entries_keys.
Qed.

(** The resolver on a listed design, whatever the dictionary holds. *)
Lemma get_df_listed d params :
  get_df_for_design (design_id d) params =
  Z.max 1 (listed_df d (get params "n" 30) (get params "J" 10)
                       (get params "K" 10) (get params "L" 10)
                       (get params "T" 5) (get params "g" 0)).
Proof. unfold get_df_for_design. by rewrite df_formulas_listed. Qed.

Lemma get_supplied params key dflt v :
  params !! key = Some v -> get params key dflt = v.
Proof. unfold get. by intros ->. Qed.

Lemma get_missing params key dflt :
  params !! key = None -> get params key dflt = dflt.
Proof. unfold get. by intros ->. Qed.

(** A supplied value wins over the fallback; a missing one reads as the
    fallback, whatever default the call site names. *)
Lemma get_fallbacks params key dflt :
  fallbacks !! key = Some dflt ->
  forall other, get (params ∪ fallbacks) key other = get params key dflt.
Proof.
  intros Hfb other. unfold get. rewrite lookup_union, Hfb.
  by destruct (params !! key).
Qed.

Lemma get_df_fallbacks design_id params :
  get_df_for_design design_id (params ∪ fallbacks) =
  get_df_for_design design_id params.
Proof.
  unfold get_df_for_design.
  by rewrite (get_fallbacks params "n" 30 eq_refl),
    (get_fallbacks params "J" 10 eq_refl), (get_fallbacks params "K" 10 eq_refl),
    (get_fallbacks params "L" 10 eq_refl), (get_fallbacks params "g" 0 eq_refl),
    (get_fallbacks params "T" 5 eq_refl).
Qed.

Lemma get_df_ge_1 design_id params : 1 <= get_df_for_design design_id params.
Proof. unfold get_df_for_design. apply Z.le_max_l. Qed.

(** C2: for each of the twenty listed designs, when the dictionary supplies
    the counts n, J, K, L, T and the covariate count g, the resolver returns
    the formula the specification lists for the design, floored at 1. *)
Theorem get_df_for_design_table (d : design) (params : gmap string Z)
    (n J K L T g : Z) :
  params !! "n" = Some n -> params !! "J" = Some J ->
  params !! "K" = Some K -> params !! "L" = Some L ->
  params !! "T" = Some T -> params !! "g" = Some g ->
  get_df_for_design (design_id d) params =
  Z.max 1 (listed_df d n J K L T g).
Proof.
  intros Hn HJ HK HL HT Hg. rewrite get_df_listed.
  by rewrite (get_supplied _ _ _ _ Hn), (get_supplied _ _ _ _ HJ),
    (get_supplied _ _ _ _ HK), (get_supplied _ _ _ _ HL),
    (get_supplied _ _ _ _ HT), (get_supplied _ _ _ _ Hg).
Qed.

(** The anchor of C2: design id "ira" with n = 400 and g = 0 gives 398. *)
Lemma get_df_for_design_table_ira_400 :
  let params : gmap string Z :=
    {[ "n" := 400; "J" := 10; "K" := 10; "L" := 10; "T" := 5; "g" := 0 ]} in
  get_df_for_design "ira" params = 398.
Proof.
  intros params.
  exact (get_df_for_design_table IRA params 400 10 10 10 5 0
           eq_refl eq_refl eq_refl eq_refl eq_refl eq_refl).
Defined.

(** C3: a partial dictionary is completed by the fallback values n = 30,
    J = 10, K = 10, L = 10, T = 5, g = 0 (the result is the one of the
    dictionary with every missing count filled in, and the empty dictionary
    gives the listed formula at the fallback values); the result is at
    least 1 for every design identifier and every dictionary, and it is 1
    whenever the formula of a listed design is zero or negative. *)
Theorem get_df_for_design_total (design_id : string) (params : gmap string Z) :
  get_df_for_design design_id params =
    get_df_for_design design_id (params ∪ fallbacks)
  /\ (forall d, get_df_for_design (Df.design_id d) ∅ =
               Z.max 1 (listed_df d 30 10 10 10 5 0))
  /\ 1 <= get_df_for_design design_id params
  /\ (forall d,
        let formula :=
          listed_df d (get params "n" 30) (get params "J" 10)
                      (get params "K" 10) (get params "L" 10)
                      (get params "T" 5) (get params "g" 0) in
        get_df_for_design (Df.design_id d) params = Z.max 1 formula
        /\ (formula <= 0 -> get_df_for_design (Df.design_id d) params = 1)).
Proof.
  split; [by rewrite get_df_fallbacks|].
  split; [intros d; by rewrite get_df_listed|].
  split; [apply get_df_ge_1|].
  intros d formula. rewrite get_df_listed. fold formula. split; [done|lia].
Qed.

(** C9: a design identifier that is not a key of the twenty-entry table
    resolves to 10, for every dictionary. *)
Theorem get_df_for_design_unknown (design_id : string)
    (params : gmap string Z) :
  design_id ∉ df_keys -> get_df_for_design design_id params = 10.
Proof.
  intros Hid. unfold get_df_for_design.
  by rewrite df_formulas_absent.
Qed.

(** The public ITS identifiers are not keys of the table: both resolve
    to 10, whatever K and T are. *)
Lemma get_df_for_design_unknown_its :
  let params : gmap string Z := {[ "K" := 40; "T" := 8; "g" := 1 ]} in
  length df_keys = 20%nat
  /\ get_df_for_design "its_nocompare" params = 10
  /\ get_df_for_design "its_wcompare" params = 10
  /\ get_df_for_design "its" params = 318.
Proof.
  intros params. split; [reflexivity|].
  split; [|split].
  - apply (get_df_for_design_unknown "its_nocompare" params).
    apply (bool_decide_unpack _). vm_compute. exact I.
  - apply (get_df_for_design_unknown "its_wcompare" params).
    apply (bool_decide_unpack _). vm_compute. exact I.
  - vm_compute. reflexivity.
Defined.
End DfFacts.

(** ** The multiplier *)

Module MultiplierFacts.
Import Multiplier.
Local Open Scope R_scope.

(** C1: the multiplier uses alpha / 2 in the quantile lookup exactly when
    the tail count is 2, T1 is the quantile at 1 - alpha, T2 the absolute
    value of the quantile at 1 - power, M is T1 + T2 when power >= 0.5 and
    T1 - T2 when power < 0.5, and the triple (M, T1, T2) is returned. *)
Theorem calculate_multiplier_spec (ppf : R -> Z -> R)
    (alpha power : R) (df two_tailed : Z) :
  exists M T1 T2 : R,
    calculate_multiplier ppf alpha power df two_tailed = (M, T1, T2)
    /\ (two_tailed = 2%Z -> T1 = ppf (1 - alpha / 2) df)
    /\ (two_tailed <> 2%Z -> T1 = ppf (1 - alpha) df)
    /\ T2 = Rabs (ppf (1 - power) df)
    /\ (power >= 0.5 -> M = T1 + T2)
    /\ (power < 0.5 -> M = T1 - T2).
Proof.
  unfold calculate_multiplier.
  eexists _, _, _. split; [reflexivity|].
  split; [intros ->; reflexivity|].
  split; [intros Hne; apply Z.eqb_neq in Hne; by rewrite Hne|].
  split; [reflexivity|].
  destruct (Rge_dec power 0.5) as [Hge|Hlt]; split; intros H; try reflexivity; lra.
Qed.

Section Tails.

Variable ppf : R -> Z -> R.

(** The quantile function is strictly increasing in the probability. *)
Hypothesis ppf_increasing :
  forall (df : Z) (q1 q2 : R), 0 < q1 -> q1 < q2 -> q2 < 1 ->
    ppf q1 df < ppf q2 df.

Variables alpha power : R.
Hypothesis alpha_pos : 0 < alpha.
Hypothesis alpha_lt_1 : alpha < 1.

Lemma T1_one_lt_two df : ppf (1 - alpha) df < ppf (1 - alpha / 2) df.
Proof. apply ppf_increasing; lra. Qed.

Lemma calculate_multiplier_tails_differ df :
  calculate_multiplier ppf alpha power df 2 <>
  calculate_multiplier ppf alpha power df 1.
Proof.
  unfold calculate_multiplier. simpl. intros Heq.
  injection Heq as _ Ht1. pose proof (T1_one_lt_two df). lra.
Qed.

Lemma multiplier_one_lt_two df :
  multiplier ppf alpha power df 1 < multiplier ppf alpha power df 2.
Proof.
  unfold multiplier, calculate_multiplier. simpl.
  pose proof (T1_one_lt_two df).
  destruct (Rge_dec power 0.5); lra.
Qed.

End Tails.
End MultiplierFacts.

(** ** One-tailed and two-tailed sample sizes *)

Module SampleSizeFacts.
Import Multiplier SampleSize MultiplierFacts.
Local Open Scope R_scope.

Section Tails.

Variable ppf : R -> Z -> R.
Hypothesis ppf_increasing :
  forall (df : Z) (q1 q2 : R), 0 < q1 -> q1 < q2 -> q2 < 1 ->
    ppf q1 df < ppf q2 df.

Variables alpha power : R.
Hypothesis alpha_pos : 0 < alpha.
Hypothesis alpha_lt_1 : alpha < 1.

Variable df_of : Z -> Z.
Variable design_factor : Z -> R.
Variable effective_n : Z -> R.
Variables r2 p : R.
Variable s_min : Z.

Local Abbreviation mdes := (mdes ppf alpha power df_of design_factor effective_n r2 p).
Local Abbreviation is_sample_size :=
  (is_sample_size ppf alpha power df_of design_factor effective_n r2 p s_min).

(** At every sample size the one-tailed MDES is at most the two-tailed. *)
Lemma mdes_one_le_two s : mdes 1 s <= mdes 2 s.
Proof.
  unfold SampleSize.mdes. apply Rmult_le_compat_r; [apply sqrt_pos|].
  left. by apply multiplier_one_lt_two.
Qed.

Lemma sample_size_one_le_two es s1 s2 :
  is_sample_size 1 es s1 -> is_sample_size 2 es s2 -> (s1 <= s2)%Z.
Proof.
  intros (Hmin1 & Hmeet1 & Hleast1) (Hmin2 & Hmeet2 & Hleast2).
  destruct (Z_le_gt_dec s1 s2) as [Hle|Hgt]; [exact Hle|exfalso].
  specialize (Hleast1 s2 ltac:(lia)).
  pose proof (mdes_one_le_two s2). lra.
Qed.

End Tails.

(** *** A concrete quantile function *)

Lemma t2_ppf_upper_half df q1 q2 :
  1 / 2 <= q1 -> q1 < q2 -> q2 < 1 -> t2_ppf q1 df < t2_ppf q2 df.
Proof.
  intros Hq1 Hlt Hq2. unfold t2_ppf.
  assert (0 < 2 * q2 * (1 - q2)) as Hpos2 by nra.
  assert (2 * q2 * (1 - q2) <= 2 * q1 * (1 - q1)) as Hle by nra.
  pose proof (sqrt_lt_R0 _ Hpos2) as Hs2.
  pose proof (sqrt_le_1_alt _ _ Hle) as Hs.
  set (s1 := sqrt (2 * q1 * (1 - q1))) in *.
  set (s2 := sqrt (2 * q2 * (1 - q2))) in *.
  apply Rle_lt_trans with ((2 * q1 - 1) / s2).
  - unfold Rdiv. apply Rmult_le_compat_l; [lra|].
    apply Rinv_le_contravar; lra.
  - unfold Rdiv. apply Rmult_lt_compat_r; [|lra].
    by apply Rinv_0_lt_compat.
Qed.

Lemma t2_ppf_mirror df q : t2_ppf (1 - q) df = - t2_ppf q df.
Proof.
  unfold t2_ppf.
  replace (2 * (1 - q) * (1 - (1 - q))) with (2 * q * (1 - q)) by lra.
  replace (2 * (1 - q) - 1) with (- (2 * q - 1)) by lra.
  unfold Rdiv. lra.
Qed.

Lemma t2_ppf_sign df q : 1 / 2 <= q -> q < 1 -> 0 <= t2_ppf q df.
Proof.
  intros Hlo Hhi. unfold t2_ppf, Rdiv.
  apply Rmult_le_pos; [lra|]. left. apply Rinv_0_lt_compat.
  apply sqrt_lt_R0. nra.
Qed.

Lemma t2_ppf_increasing df q1 q2 :
  0 < q1 -> q1 < q2 -> q2 < 1 -> t2_ppf q1 df < t2_ppf q2 df.
Proof.
  intros Hq1 Hlt Hq2.
  destruct (Rle_lt_dec (1 / 2) q1) as [Hup1|Hlow1].
  - by apply t2_ppf_upper_half.
  - destruct (Rle_lt_dec (1 / 2) q2) as [Hup2|Hlow2].
    + pose proof (t2_ppf_sign df q2 Hup2 Hq2) as Hnn.
      pose proof (t2_ppf_upper_half df (1 / 2) (1 - q1)
                    ltac:(lra) ltac:(lra) ltac:(lra)) as Hm.
      pose proof (t2_ppf_sign df (1 / 2) ltac:(lra) ltac:(lra)) as Hhalf.
      rewrite t2_ppf_mirror in Hm. lra.
    + pose proof (t2_ppf_upper_half df (1 - q2) (1 - q1)
                    ltac:(lra) ltac:(lra) ltac:(lra)) as Hm.
      rewrite !t2_ppf_mirror in Hm. lra.
Qed.

(** *** The IRA design at alpha = 0.05, power = 0.80, P = 0.50 *)

Lemma sqrt_between lo hi x :
  0 <= lo -> 0 <= hi -> lo * lo < x -> x < hi * hi -> lo < sqrt x < hi.
Proof.
  intros Hlo Hhi Hl Hh. split.
  - rewrite <- (sqrt_square lo Hlo). apply sqrt_lt_1_alt. nra.
  - rewrite <- (sqrt_square hi Hhi). apply sqrt_lt_1_alt. nra.
Qed.

Lemma quotient_between a lo hi s :
  0 < a -> 0 < lo -> lo < s -> s < hi -> a / hi < a / s < a / lo.
Proof.
  intros Ha Hlo Hl Hh. unfold Rdiv. split.
  - apply Rmult_lt_compat_l; [lra|]. apply Rinv_lt_contravar; nra.
  - apply Rmult_lt_compat_l; [lra|]. apply Rinv_lt_contravar; nra.
Qed.

Lemma t2_ppf_between df q lo hi :
  1 / 2 < q -> 0 < lo -> lo * lo < 2 * q * (1 - q) -> 2 * q * (1 - q) < hi * hi ->
  0 < hi ->
  (2 * q - 1) / hi < t2_ppf q df < (2 * q - 1) / lo.
Proof.
  intros Hq Hlo Hl Hh Hhi. unfold t2_ppf.
  destruct (sqrt_between lo hi (2 * q * (1 - q))) as [Hs1 Hs2]; try lra.
  apply quotient_between; lra.
Qed.

Lemma t2_ppf_080 df : 1.0606 < t2_ppf 0.8 df < 1.0609.
Proof.
  destruct (t2_ppf_between df 0.8 0.5656 0.5657) as [H1 H2]; lra.
Qed.

Lemma t2_ppf_0975 df : 4.3025 < t2_ppf (1 - 0.05 / 2) df < 4.3028.
Proof.
  destruct (t2_ppf_between df (1 - 0.05 / 2) 0.22079 0.2208) as [H1 H2]; lra.
Qed.

Lemma t2_ppf_095 df : 2.9192 < t2_ppf (1 - 0.05) df < 2.9202.
Proof.
  destruct (t2_ppf_between df (1 - 0.05) 0.3082 0.3083) as [H1 H2]; lra.
Qed.

Lemma T2_080 df : Rabs (t2_ppf (1 - 0.8) df) = t2_ppf 0.8 df.
Proof.
  rewrite t2_ppf_mirror, Rabs_Ropp. apply Rabs_pos_eq.
  pose proof (t2_ppf_080 df). lra.
Qed.

Lemma multiplier_two_bounds df :
  5.3631 < multiplier t2_ppf 0.05 0.8 df 2 < 5.3637.
Proof.
  unfold multiplier, calculate_multiplier.
  change (2 =? 2)%Z with true. cbn [fst]. rewrite T2_080.
  pose proof (t2_ppf_080 df). pose proof (t2_ppf_0975 df).
  destruct (Rge_dec 0.8 0.5); lra.
Qed.

Lemma multiplier_one_bounds df :
  3.9798 < multiplier t2_ppf 0.05 0.8 df 1 < 3.9811.
Proof.
  unfold multiplier, calculate_multiplier.
  change (1 =? 2)%Z with false. cbn [fst]. rewrite T2_080.
  pose proof (t2_ppf_080 df). pose proof (t2_ppf_095 df).
  destruct (Rge_dec 0.8 0.5); lra.
Qed.

(** The square-root factor of the IRA formula at P = 0.50 and R2 = 0 is
    [sqrt (4 / n)]; [s] names the root and [x] its argument. *)
Local Ltac ira_root n x s :=
  replace (1 * (1 - 0)) with 1 by lra;
  replace (0.5 * (1 - 0.5) * n) with (n / 4) by lra;
  replace (1 / (n / 4)) with (4 / n) by (field; lra);
  assert (0 <= 4 / n) as Hx by (left; apply Rdiv_lt_0_compat; lra);
  pose proof (sqrt_pos (4 / n)) as Hs;
  pose proof (sqrt_sqrt _ Hx) as Hss;
  assert (4 / n * n = 4) as Hxn by (field; lra);
  set (x := 4 / n) in *; set (s := sqrt x) in *.

Lemma scaled_root_le M n :
  0 < M -> 0 < n -> 4 * (M * M) <= n ->
  M * sqrt (1 * (1 - 0) / (0.5 * (1 - 0.5) * n)) <= 1.
Proof.
  intros HM Hn Hle. ira_root n x s.
  assert (M * M * x <= 1) as Hb by nra.
  nra.
Qed.

Lemma scaled_root_gt M n :
  0 < M -> 0 < n -> n < 4 * (M * M) ->
  1 < M * sqrt (1 * (1 - 0) / (0.5 * (1 - 0.5) * n)).
Proof.
  intros HM Hn Hlt. ira_root n x s.
  assert (1 < M * M * x) as Hb by nra.
  destruct (Rlt_le_dec 1 (M * s)) as [Hgt|Hle]; [exact Hgt|exfalso].
  assert (0 <= M * s) as Hms by nra.
  assert (M * s * (M * s) <= 1) as Hsq by nra.
  nra.
Qed.

(** With the quantiles of [t2_ppf], the target effect size 1 is met
    one-tailed from n = 64 on, and two-tailed from n = 116 on. *)
Lemma ira_sample_size_one_tailed :
  ira_is_sample_size t2_ppf 0.05 0.8 0 0.5 0 1 1 64.
Proof.
  unfold ira_is_sample_size, is_sample_size, mdes.
  split; [lia|]. split.
  - pose proof (multiplier_one_bounds (ira_df 0 64)).
    apply scaled_root_le; [lra|lra|nra].
  - intros s' [Hlo Hhi].
    pose proof (multiplier_one_bounds (ira_df 0 s')).
    assert (3 <= IZR s' <= 63) as [Hlo' Hhi'].
    { split; apply IZR_le; lia. }
    apply scaled_root_gt; [lra|lra|nra].
Qed.

Lemma ira_sample_size_two_tailed :
  ira_is_sample_size t2_ppf 0.05 0.8 0 0.5 0 2 1 116.
Proof.
  unfold ira_is_sample_size, is_sample_size, mdes.
  split; [lia|]. split.
  - pose proof (multiplier_two_bounds (ira_df 0 116)).
    apply scaled_root_le; [lra|lra|nra].
  - intros s' [Hlo Hhi].
    pose proof (multiplier_two_bounds (ira_df 0 s')).
    assert (3 <= IZR s' <= 115) as [Hlo' Hhi'].
    { split; apply IZR_le; lia. }
    apply scaled_root_gt; [lra|lra|nra].
Qed.

(** C8: when the quantile function is strictly increasing in the
    probability, as the Student-t quantile is, and 0 < alpha < 1, the
    two-tailed and the one-tailed multiplier triples differ at every power
    and every df, and for every design the one-tailed minimum sample size
    is at most the two-tailed one at equal alpha, power and target. *)
Theorem tails_change_multiplier_and_sample_size
    (ppf : R -> Z -> R) (alpha power : R) :
  (forall (df : Z) (q1 q2 : R), 0 < q1 -> q1 < q2 -> q2 < 1 ->
     ppf q1 df < ppf q2 df) ->
  0 < alpha -> alpha < 1 ->
  (forall df : Z,
     calculate_multiplier ppf alpha power df 2 <>
     calculate_multiplier ppf alpha power df 1)
  /\ (forall (df_of : Z -> Z) (design_factor effective_n : Z -> R)
        (r2 p : R) (s_min : Z) (es : R) (s1 s2 : Z),
       is_sample_size ppf alpha power df_of design_factor effective_n
         r2 p s_min 1 es s1 ->
       is_sample_size ppf alpha power df_of design_factor effective_n
         r2 p s_min 2 es s2 ->
       (s1 <= s2)%Z).
Proof.
  intros Hinc Hpos Hlt. split.
  - intros df. by apply calculate_multiplier_tails_differ.
  - intros df_of design_factor effective_n r2 p s_min es s1 s2.
    by apply sample_size_one_le_two.
Qed.

(** C8 at the quantile function [t2_ppf], alpha = 0.05 and power = 0.80:
    the triples differ at df = 2, and the IRA sample sizes for the target
    effect size 1 are 64 one-tailed and 116 two-tailed. *)
Lemma tails_change_multiplier_and_sample_size_ira :
  calculate_multiplier t2_ppf 0.05 0.8 2 2 <>
    calculate_multiplier t2_ppf 0.05 0.8 2 1
  /\ ira_is_sample_size t2_ppf 0.05 0.8 0 0.5 0 1 1 64
  /\ ira_is_sample_size t2_ppf 0.05 0.8 0 0.5 0 2 1 116
  /\ (64 <= 116)%Z.
Proof.
  assert (0 < 0.05) as Hpos by lra.
  assert (0.05 < 1) as Hlt by lra.
  destruct (tails_change_multiplier_and_sample_size t2_ppf 0.05 0.8
              t2_ppf_increasing Hpos Hlt) as [Hdiffer Hsize].
  split; [apply Hdiffer|].
  split; [apply ira_sample_size_one_tailed|].
  split; [apply ira_sample_size_two_tailed|].
  exact (Hsize _ _ _ _ _ _ _ _ _
           ira_sample_size_one_tailed ira_sample_size_two_tailed).
Defined.

End SampleSizeFacts.

(** ** Power *)

Module PowerFacts.
Import Multiplier SampleSize Power SampleSizeFacts.
Local Open Scope R_scope.


(** A returned point is a root up to the tolerance. *)
Lemma bisect_residual g tol cap :
  forall lo hi x, bisect g tol cap lo hi = Returns x -> Rabs (g x) <= tol.
Proof.
  induction cap as [|cap IH]; intros lo hi x Hrun; simpl in Hrun.
  - discriminate.
  - destruct (Rle_dec (Rabs (g ((lo + hi) / 2))) tol) as [Hclose|Hfar].
    + by injection Hrun as <-.
    + destruct (Rlt_dec (g ((lo + hi) / 2)) 0); by apply IH in Hrun.
Qed.

(** The only failure is the exhausted iteration budget. *)
Lemma bisect_failure g tol cap :
  forall lo hi e, bisect g tol cap lo hi = Raises e -> e = NonConvergence.
Proof.
  induction cap as [|cap IH]; intros lo hi e Hrun; simpl in Hrun.
  - by injection Hrun as <-.
  - destruct (Rle_dec (Rabs (g ((lo + hi) / 2))) tol); [discriminate|].
    destruct (Rlt_dec (g ((lo + hi) / 2)) 0); by apply IH in Hrun.
Qed.

(** Enough iterations suffice: when [g] is non-decreasing and Lipschitz
    and has a root in the interval, the search returns as soon as the
    interval is short enough for the tolerance. *)
Lemma bisect_converges g tol Lc x0 :
  0 < tol -> 0 <= Lc ->
  (forall x y, x <= y -> g x <= g y) ->
  (forall x y, Rabs (g x - g y) <= Lc * Rabs (x - y)) ->
  g x0 = 0 ->
  forall cap lo hi,
    (0 < cap)%nat -> lo <= x0 <= hi -> Lc * (hi - lo) <= tol * 2 ^ cap ->
    exists x, bisect g tol cap lo hi = Returns x.
Proof.
  intros Htol HLc Hmono Hlip Hroot.
  induction cap as [|cap IH]; intros lo hi Hcap [Hlo Hhi] Hwidth; [lia|].
  simpl. set (mid := (lo + hi) / 2).
  destruct (Rle_dec (Rabs (g mid)) tol) as [Hclose|Hfar]; [by eexists|].
  assert (Rabs (mid - x0) <= (hi - lo) / 2) as Hdist.
  { apply Rabs_le. unfold mid. lra. }
  assert (Rabs (g mid) <= Lc * ((hi - lo) / 2)) as Hres.
  { specialize (Hlip mid x0). rewrite Hroot, Rminus_0_r in Hlip.
    apply Rle_trans with (Lc * Rabs (mid - x0)); [exact Hlip|].
    by apply Rmult_le_compat_l. }
  simpl in Hwidth.
  assert (0 < cap)%nat as Hcap'.
  { destruct cap; [|lia]. simpl in Hwidth. lra. }
  destruct (Rlt_dec (g mid) 0) as [Hneg|Hpos].
  - apply IH; [exact Hcap'| |unfold mid; lra].
    split; [|exact Hhi].
    destruct (Rle_lt_dec x0 mid) as [Hle|Hgt]; [|lra].
    pose proof (Hmono _ _ Hle). lra.
  - apply IH; [exact Hcap'| |unfold mid; lra].
    split; [exact Hlo|].
    destruct (Rle_lt_dec x0 mid) as [Hle|Hgt]; [exact Hle|].
    pose proof (Hmono mid x0 ltac:(lra)) as Hm.
    exfalso. apply Hfar. rewrite Rabs_pos_eq; lra.
Qed.



(** *** One search: IRA, n = 100, two-tailed, alpha = 2/9 *)






End PowerFacts.

(** ** The design-effect helper *)

Module DesignEffectFacts.
Import DesignEffect.
Local Open Scope R_scope.

Lemma overflow_bound_gt_1 : 1 < overflow_bound.
Proof. unfold overflow_bound. apply Rlt_pow_R1; [lra|lia]. Qed.

Lemma square_in_range x :
  Rabs x < overflow_bound -> square x = Returns (x ^ 2).
Proof.
  intros Hx. unfold square.
  destruct (Rle_dec overflow_bound (Rabs x)); [lra|reflexivity].
Qed.

Lemma square_overflow x :
  overflow_bound <= Rabs x -> square x = Raises OverflowError.
Proof.
  intros Hx. unfold square.
  destruct (Rle_dec overflow_bound (Rabs x)); [reflexivity|contradiction].
Qed.

Lemma estimate_at_least_1 rho_ts :
  rho_ts >= 1 -> estimate_design_effect rho_ts = Returns Infinity.
Proof.
  intros H. unfold estimate_design_effect.
  destruct (Rge_dec rho_ts 1); [reflexivity|contradiction].
Qed.

Lemma estimate_below_1 rho_ts :
  - overflow_bound < rho_ts -> rho_ts < 1 -> rho_ts <> -1 ->
  estimate_design_effect rho_ts = Returns (Finite (1 / (1 - rho_ts ^ 2))).
Proof.
  intros Hlo Hlt Hne. pose proof overflow_bound_gt_1 as Hb.
  unfold estimate_design_effect, truediv.
  destruct (Rge_dec rho_ts 1); [lra|].
  rewrite square_in_range by (apply Rabs_def1; lra).
  destruct (Req_dec_T (1 - rho_ts ^ 2) 0) as [Hz|Hnz]; [|reflexivity].
  exfalso. assert ((rho_ts - 1) * (rho_ts + 1) = 0) as Hp by lra.
  apply Rmult_integral in Hp as [Hp|Hp]; lra.
Qed.

Lemma estimate_minus_1 :
  estimate_design_effect (-1) = Raises ZeroDivisionError.
Proof.
  pose proof overflow_bound_gt_1 as Hb.
  unfold estimate_design_effect, truediv.
  destruct (Rge_dec (-1) 1); [lra|].
  rewrite square_in_range by (apply Rabs_def1; lra).
  destruct (Req_dec_T (1 - (-1) ^ 2) 0) as [Hz|Hnz]; [reflexivity|].
  exfalso. apply Hnz. lra.
Qed.

Lemma estimate_overflow rho_ts :
  rho_ts <= - overflow_bound ->
  estimate_design_effect rho_ts = Raises OverflowError.
Proof.
  intros Hle. pose proof overflow_bound_gt_1 as Hb.
  unfold estimate_design_effect.
  destruct (Rge_dec rho_ts 1); [lra|].
  rewrite square_overflow; [reflexivity|].
  rewrite Rabs_left by lra. lra.
Qed.

Lemma estimate_inside rho_ts :
  -1 < rho_ts < 1 ->
  exists v, estimate_design_effect rho_ts = Returns (Finite v) /\ 0 < v.
Proof.
  intros [Hlo Hhi]. pose proof overflow_bound_gt_1 as Hb.
  eexists. split; [apply estimate_below_1; lra|].
  apply Rdiv_lt_0_compat; nra.
Qed.

Lemma estimate_below_minus_1 rho_ts :
  - overflow_bound < rho_ts -> rho_ts < -1 ->
  exists v, estimate_design_effect rho_ts = Returns (Finite v) /\ v < 0.
Proof.
  intros Hlo Hlt. eexists. split; [apply estimate_below_1; lra|].
  assert (1 - rho_ts ^ 2 < 0) as Hneg by nra.
  unfold Rdiv. rewrite Rmult_1_l. by apply Rinv_lt_0_compat.
Qed.

(** C4: the helper meets the claim on every rho_ts > -1: it returns
    +infinity for rho_ts >= 1 and 1 / (1 - rho_ts^2) for -1 < rho_ts < 1,
    and at 0.80 the result is 1 / (1 - 0.64), shown as 2.7778 with four
    decimals.  At rho_ts = -1, where the denominator is zero as it is at
    rho_ts = 1, no guard applies: the call raises ZeroDivisionError and
    returns no value. *)
Theorem estimate_design_effect_spec :
  (forall rho_ts, rho_ts >= 1 ->
     estimate_design_effect rho_ts = Returns Infinity)
  /\ (forall rho_ts, -1 < rho_ts -> rho_ts < 1 ->
        estimate_design_effect rho_ts
        = Returns (Finite (1 / (1 - rho_ts ^ 2))))
  /\ estimate_design_effect 0.80 = Returns (Finite (1 / (1 - 0.64)))
  /\ shows_4dp (Finite (1 / (1 - 0.64))) 2.7778
  /\ estimate_design_effect 1 = Returns Infinity
  /\ estimate_design_effect (-1) = Raises ZeroDivisionError
  /\ (forall v, estimate_design_effect (-1) <> Returns v).
Proof.
  pose proof overflow_bound_gt_1 as Hb.
  split; [apply estimate_at_least_1|].
  split; [intros rho_ts Hlo Hhi; apply estimate_below_1; lra|].
  split; [rewrite estimate_below_1 by lra; do 2 f_equal; lra|].
  split; [unfold shows_4dp; lra|].
  split; [apply estimate_at_least_1; lra|].
  split; [apply estimate_minus_1|].
  intros v. rewrite estimate_minus_1. discriminate.
Qed.

(** C10 fails as stated below -1: at rho_ts = -2^512 the square leaves the
    range of a float, and the call raises OverflowError, so that it
    returns no value, negative or not. *)
Lemma estimate_design_effect_overflows :
  - overflow_bound < -1
  /\ estimate_design_effect (- overflow_bound) = Raises OverflowError
  /\ (forall v, estimate_design_effect (- overflow_bound) <> Returns v).
Proof.
  pose proof overflow_bound_gt_1 as Hb.
  assert (estimate_design_effect (- overflow_bound) = Raises OverflowError)
    as Hrun by (apply estimate_overflow; lra).
  split; [lra|]. split; [exact Hrun|].
  intros v. rewrite Hrun. discriminate.
Qed.

(** C10, amended: the guard covers rho_ts >= 1 only.  At rho_ts = -1 the
    division by zero is raised; for -2^512 < rho_ts < -1 the helper
    returns a negative value; for rho_ts <= -2^512 it raises
    OverflowError; it returns a positive value (+infinity included)
    exactly on rho_ts > -1. *)
Theorem estimate_design_effect_guard :
  estimate_design_effect (-1) = Raises ZeroDivisionError
  /\ (forall rho_ts, - overflow_bound < rho_ts -> rho_ts < -1 ->
        exists v, estimate_design_effect rho_ts = Returns v /\ negative v)
  /\ (forall rho_ts, rho_ts <= - overflow_bound ->
        estimate_design_effect rho_ts = Raises OverflowError)
  /\ (forall rho_ts,
        (exists v, estimate_design_effect rho_ts = Returns v /\ positive v)
        <-> rho_ts > -1).
Proof.
  pose proof overflow_bound_gt_1 as Hb.
  split; [apply estimate_minus_1|]. split; [|split].
  - intros rho_ts Hlo Hlt.
    destruct (estimate_below_minus_1 rho_ts Hlo Hlt) as (v & Hv & Hneg).
    by exists (Finite v).
  - apply estimate_overflow.
  - intros rho_ts. split.
    + intros (v & Hv & Hpos).
      destruct (Rlt_le_dec (-1) rho_ts) as [Hgt|Hle]; [lra|]. exfalso.
      destruct (Req_dec_T rho_ts (-1)) as [->|Hne].
      { rewrite estimate_minus_1 in Hv. discriminate. }
      destruct (Rlt_le_dec (- overflow_bound) rho_ts) as [Hin|Hout].
      * destruct (estimate_below_minus_1 rho_ts) as (w & Hw & Hneg);
          [lra|lra|].
        rewrite Hw in Hv. injection Hv as <-. simpl in Hpos. lra.
      * rewrite estimate_overflow in Hv by exact Hout. discriminate.
    + intros Hgt. destruct (Rge_dec rho_ts 1) as [Hge|Hlt].
      * exists Infinity. split; [by apply estimate_at_least_1|exact I].
      * destruct (estimate_inside rho_ts) as (v & Hv & Hpos); [lra|].
        by exists (Finite v).
Qed.

End DesignEffectFacts.

(** ** The resolver and the dictionary it reads *)

Module DfFrame.
Import Df DfFacts Form.

Lemma get_agree (params1 params2 : gmap string Z) key dflt :
  params1 !! key = params2 !! key -> get params1 key dflt = get params2 key dflt.
Proof. unfold get. by intros ->. Qed.

Lemma get_insert_eq (params : gmap string Z) key v dflt :
  get (<[key := v]> params) key dflt = v.
Proof. unfold get. by rewrite lookup_insert_eq. Qed.

Lemma get_insert_ne (params : gmap string Z) key key' v dflt :
  key <> key' -> get (<[key := v]> params) key' dflt = get params key' dflt.
Proof. intros Hne. unfold get. by rewrite lookup_insert_ne. Qed.

Lemma get_delete_insert (m : gmap string Z) k key dflt v :
  (key = k -> dflt = v) ->
  get (delete k m) key dflt = get (<[k := v]> m) key dflt.
Proof.
  intros Hd. unfold get. destruct (decide (k = key)) as [->|Hne].
  - rewrite lookup_delete_eq, lookup_insert_eq. simpl. by apply Hd.
  - by rewrite lookup_delete_ne, lookup_insert_ne.
Qed.

(** A count that is missing reads as its fallback. *)
Lemma get_df_delete design_id (m : gmap string Z) k :
  get_df_for_design design_id (delete k m) =
  get_df_for_design design_id (<[k := default 0 (fallbacks !! k)]> m).
Proof.
  unfold get_df_for_design. set (v := default 0 (fallbacks !! k)).
  rewrite (get_delete_insert m k "n" 30 v), (get_delete_insert m k "J" 10 v),
    (get_delete_insert m k "K" 10 v), (get_delete_insert m k "L" 10 v),
    (get_delete_insert m k "g" 0 v), (get_delete_insert m k "T" 5 v);
    [reflexivity|by intros <-..].
Qed.

Lemma df_key_design design_id :
  design_id ∈ df_keys -> exists d, design_id = Df.design_id d.
Proof.
  rewrite df_keys_designs. intros Hin.
  apply list_elem_of_fmap in Hin as (d & -> & _). by exists d.
Qed.

(** X1: [get_df_for_design] reads the six counts n, J, K, L, g and T and
    nothing else: two dictionaries that agree on these six keys (a key
    missing in both counts as agreeing) give the same degrees of freedom,
    for every design identifier.  The other inputs of the form (alpha,
    power, the variance shares, ...) never change the result. *)
Theorem get_df_for_design_frame (design_id : string)
    (params1 params2 : gmap string Z) :
  (forall key, key ∈ count_keys -> params1 !! key = params2 !! key) ->
  get_df_for_design design_id params1 = get_df_for_design design_id params2.
Proof.
  intros Hagree. unfold get_df_for_design.
  rewrite (get_agree params1 params2 "n"), (get_agree params1 params2 "J"),
    (get_agree params1 params2 "K"), (get_agree params1 params2 "L"),
    (get_agree params1 params2 "g"), (get_agree params1 params2 "T");
    [reflexivity|apply Hagree; unfold count_keys; rewrite !elem_of_cons; tauto..].
Qed.

(** X1 on IRA with n = 400: adding the tail count and the ITS follow-up
    period to the dictionary changes nothing. *)
Lemma get_df_for_design_frame_ira :
  let params : gmap string Z := {[ "n" := 400; "g" := 0 ]} in
  get_df_for_design "ira" (<["two_tailed" := 1]> (<["tf" := 7]> params)) =
  get_df_for_design "ira" params.
Proof.
  intros params. apply get_df_for_design_frame.
  intros key Hkey. rewrite !lookup_insert_ne; [reflexivity|..];
    intros <-; revert Hkey; apply (bool_decide_unpack _); vm_compute; exact I.
Defined.

(** X2: a larger covariate count g never gives more degrees of freedom:
    for every design identifier and dictionary, replacing g by g' >= g
    leaves the result equal or lowers it. *)
Theorem get_df_for_design_covariates (design_id : string)
    (params : gmap string Z) (g g' : Z) :
  g <= g' ->
  get_df_for_design design_id (<["g" := g']> params)
  <= get_df_for_design design_id (<["g" := g]> params).
Proof.
  intros Hle. destruct (decide (design_id ∈ df_keys)) as [Hin|Hout].
  - destruct (df_key_design _ Hin) as [d ->].
    rewrite !get_df_listed, !get_insert_eq, !get_insert_ne by done.
    destruct d; unfold listed_df; lia.
  - unfold get_df_for_design. rewrite !df_formulas_absent by done. lia.
Qed.

(** X2 on IRA with n = 400: five covariates give 393, none gives 398. *)
Lemma get_df_for_design_covariates_ira :
  let params : gmap string Z := {[ "n" := 400 ]} in
  get_df_for_design "ira" (<["g" := 5]> params) = 393
  /\ get_df_for_design "ira" (<["g" := 0]> params) = 398
  /\ get_df_for_design "ira" (<["g" := 5]> params)
     <= get_df_for_design "ira" (<["g" := 0]> params).
Proof.
  intros params. split; [vm_compute; reflexivity|].
  split; [vm_compute; reflexivity|].
  apply (get_df_for_design_covariates "ira" params 0 5). lia.
Defined.

(** The entries of [DESIGNS], by the designs of the resolver. *)
Lemma DESIGNS_by_design :
  (fun kv : string * design_info => (kv.1, sample_size_for kv.2)) <$> DESIGNS
  = (fun d => (design_id d, solved_count d)) <$> all_designs.
Proof. vm_compute. reflexivity. Qed.

Lemma DESIGNS_entry key design :
  (key, design) ∈ DESIGNS ->
  exists d, key = design_id d /\ sample_size_for design = solved_count d.
Proof.
  intros Hin.
  assert ((key, sample_size_for design)
          ∈ (fun d => (design_id d, solved_count d)) <$> all_designs) as Hd.
  { rewrite <- DESIGNS_by_design. apply list_elem_of_fmap.
    by exists (key, design). }
  apply list_elem_of_fmap in Hd as (d & [= -> ->] & _). by exists d.
Qed.

Lemma DESIGNS_by_lookup :
  DESIGNS =
  omap (fun d => pair (design_id d) <$> (dict_of DESIGNS !! design_id d))
       all_designs.
Proof. vm_compute. reflexivity. Qed.

Lemma DESIGNS_lookup_entry key design :
  (key, design) ∈ DESIGNS ->
  exists d, key = design_id d /\ dict_of DESIGNS !! design_id d = Some design.
Proof.
  intros Hin.
  assert ((key, design) ∈
          omap (fun d => pair (design_id d) <$> (dict_of DESIGNS !! design_id d))
               all_designs) as Hd by (by rewrite <- DESIGNS_by_lookup).
  apply list_elem_of_omap in Hd as (d & _ & Hd).
  destruct (dict_of DESIGNS !! design_id d) as [design'|] eqn:Hlook;
    [|discriminate Hd].
  injection Hd as <- <-. by exists d.
Qed.

Local Ltac eval_solved_count :=
  match goal with
  | |- context [solved_count ?d] =>
      let v := eval vm_compute in (solved_count d) in
      change (solved_count d) with v
  end.

Lemma floor_product_mono c e g s s' :
  0 <= s -> s <= s' -> 0 <= g -> 0 <= e ->
  Z.max 1 (s * c - g - e) <= Z.max 1 (s' * c - g - e).
Proof.
  intros Hs Hss Hg He. destruct (Z_le_gt_dec 0 c) as [Hc|Hc]; nia.
Qed.

Lemma floor_product_mono_0 c g s s' :
  0 <= s -> s <= s' -> 0 <= g ->
  Z.max 1 (s * c - g) <= Z.max 1 (s' * c - g).
Proof.
  intros Hs Hss Hg. destruct (Z_le_gt_dec 0 c) as [Hc|Hc]; nia.
Qed.

(** X3: for every entry of [DESIGNS], the degrees of freedom never go down
    when the count the design solves for ([sample_size_for]) goes up: with
    0 <= s <= s' and a covariate count that is not negative, the result at
    s is at most the result at s', whatever the other counts are (the
    floor at 1 absorbs a negative factor). *)
Theorem df_grows_with_solved_count :
  Forall (fun kv : string * design_info =>
    forall (params : gmap string Z) (s s' : Z),
      0 <= s -> s <= s' -> 0 <= get params "g" 0 ->
      get_df_for_design kv.1 (<[sample_size_for kv.2 := s]> params)
      <= get_df_for_design kv.1 (<[sample_size_for kv.2 := s']> params))
    DESIGNS.
Proof.
  apply Forall_forall. intros [key design] Hin params s s' Hs Hss Hg.
  destruct (DESIGNS_entry key design Hin) as (d & Hkey & Hcount).
  cbn [fst snd]. rewrite Hkey, Hcount, !get_df_listed.
  destruct d; eval_solved_count;
    rewrite !get_insert_eq, !get_insert_ne by done; unfold listed_df;
    first [ lia | apply floor_product_mono; lia
          | apply floor_product_mono_0; lia ].
Qed.

End DfFrame.

(** ** The tables of the form *)

Module TableFacts.
Import Df DfFacts Form.

Lemma DESIGNS_ok : Forall design_ok DESIGNS.
Proof. apply (bool_decide_unpack _). vm_compute. exact I. Qed.

Lemma DESIGNS_keys : DESIGNS.*1 = df_keys.
Proof. reflexivity. Qed.

Lemma DESIGNS_lookup :
  Forall (fun kv : string * design_info => dict_of DESIGNS !! kv.1 = Some kv.2)
         DESIGNS.
Proof. apply (bool_decide_unpack _). vm_compute. exact I. Qed.

(** X4: the table [DESIGNS] fits the code that reads it.  Its keys are the
    keys of [df_formulas], in the same order and without a duplicate, so
    the resolver never falls back to 10 for a design of the selector and
    every key finds its own entry.  In every entry the order of the inputs
    has no duplicate, names keys of [PARAMS] only, holds alpha, the tail
    count, power and g, and never the effect size; the count the design
    solves for is in the order and is one of n, J, K, L; the category is
    one of the six of the selector; and the name in lower case is the key,
    which is how [generate_academic_paragraph] finds the entry. *)
Theorem DESIGNS_well_formed :
  DESIGNS.*1 = df_keys
  /\ NoDup DESIGNS.*1
  /\ Forall design_ok DESIGNS
  /\ Forall (fun kv : string * design_info =>
               dict_of DESIGNS !! lower (name kv.2) = Some kv.2) DESIGNS.
Proof.
  split; [exact DESIGNS_keys|].
  split; [rewrite DESIGNS_keys; exact df_keys_NoDup|].
  split; [exact DESIGNS_ok|].
  apply Forall_forall. intros kv Hin.
  pose proof (proj1 (Forall_forall _ _) DESIGNS_ok _ Hin) as Hok.
  pose proof (proj1 (Forall_forall _ _) DESIGNS_lookup _ Hin) as Hlook.
  destruct Hok as (_ & _ & _ & _ & _ & _ & _ & _ & _ & _ & Hname).
  by rewrite Hname.
Qed.

(** X5: the table [PARAMS] has no duplicate key, and every entry is a
    valid [st.number_input]: min <= default <= max and step > 0. *)
Theorem PARAMS_ranges :
  NoDup PARAMS.*1
  /\ Forall (fun kv : string * param_def => in_range kv.2) PARAMS.
Proof.
  split; [apply (bool_decide_unpack _); vm_compute; exact I|].
  unfold PARAMS, in_range.
  repeat (apply Forall_cons; split; [|]); try solve [constructor];
    cbn [snd p_default p_min p_max p_step];
    repeat split; (apply Qle_bool_iff || apply Qlt_alt); reflexivity.
Qed.

Lemma PARAMS_float k :
  k ∈ ["alpha"; "power"; "es"] ->
  exists def, dict_of PARAMS !! k = Some def /\ is_int def = false.
Proof.
  intros Hk.
  repeat (apply elem_of_cons in Hk as [->|Hk]);
    [| | |by apply elem_of_nil in Hk];
    (eexists; split; [vm_compute; reflexivity|reflexivity]).
Qed.

Lemma PARAMS_count k :
  k ∈ ["two_tailed"; "n"; "J"; "K"; "L"; "g"; "T"] ->
  exists def, dict_of PARAMS !! k = Some def /\ is_int def = true.
Proof.
  intros Hk.
  repeat (apply elem_of_cons in Hk as [->|Hk]);
    [| | | | | | |by apply elem_of_nil in Hk];
    (eexists; split; [vm_compute; reflexivity|reflexivity]).
Qed.

Lemma float_input_float input_float k :
  k ∈ ["alpha"; "power"; "es"] ->
  float_input input_float k = Some (input_float k).
Proof.
  intros Hk. unfold float_input.
  destruct (PARAMS_float k Hk) as (def & -> & ->). reflexivity.
Qed.

Lemma int_input_float input_int k :
  k ∈ ["alpha"; "power"; "es"] -> int_input input_int k = None.
Proof.
  intros Hk. unfold int_input.
  destruct (PARAMS_float k Hk) as (def & -> & ->). reflexivity.
Qed.

Lemma int_input_count input_int k :
  k ∈ ["two_tailed"; "n"; "J"; "K"; "L"; "g"; "T"] ->
  int_input input_int k = Some (input_int k).
Proof.
  intros Hk. unfold int_input.
  destruct (PARAMS_count k Hk) as (def & -> & ->). reflexivity.
Qed.

Lemma solved_count_is_count k :
  k ∈ ["n"; "J"; "K"; "L"] ->
  k ∈ ["two_tailed"; "n"; "J"; "K"; "L"; "g"; "T"]
  /\ k <> "alpha" /\ k <> "power" /\ k <> "es" /\ k <> "two_tailed".
Proof.
  intros Hk.
  repeat (apply elem_of_cons in Hk as [->|Hk]);
    [| | | |by apply elem_of_nil in Hk];
    (split; [rewrite !elem_of_cons; tauto|done]).
Qed.

End TableFacts.

(** ** The order of the inputs *)

Module OrderFacts.
Import Df Form.

Lemma pyremove_length x l : x ∈ l -> S (length (pyremove x l)) = length l.
Proof.
  induction l as [|y l IH]; intros Hin; [by apply elem_of_nil in Hin|].
  simpl. destruct (decide (y = x)) as [->|Hne]; [done|].
  apply elem_of_cons in Hin as [->|Hin]; [done|].
  simpl. by rewrite IH.
Qed.

Lemma pyremove_absent x l : x ∉ l -> pyremove x l = l.
Proof.
  induction l as [|y l IH]; intros Hin; [done|].
  apply not_elem_of_cons in Hin as [Hne Hin].
  simpl. destruct (decide (y = x)) as [->|_]; [done|]. by rewrite IH.
Qed.

Lemma elem_of_pyremove x y l :
  NoDup l -> y ∈ pyremove x l <-> y ∈ l /\ y <> x.
Proof.
  induction 1 as [|z l Hz Hnd IH]; simpl.
  - rewrite elem_of_nil. tauto.
  - destruct (decide (z = x)) as [->|Hne].
    + split; [intros Hy|intros [Hy Hne]].
      * split; [by right|]. by intros ->.
      * apply elem_of_cons in Hy as [->|Hy]; done.
    + rewrite !elem_of_cons, IH.
      split; [intros [->|[? ?]]|intros [[->|?] ?]]; intuition congruence.
Qed.

Lemma elem_of_pyinsert i x y l : y ∈ pyinsert i x l <-> y = x \/ y ∈ l.
Proof.
  unfold pyinsert. rewrite elem_of_app, elem_of_cons.
  rewrite <- (take_drop i l) at 3. rewrite elem_of_app. tauto.
Qed.

Lemma pyinsert_length i x l : length (pyinsert i x l) = S (length l).
Proof.
  unfold pyinsert. rewrite length_app. simpl.
  rewrite <- (take_drop i l) at 3. rewrite length_app. lia.
Qed.

Lemma pyremove_pyinsert i x l : x ∉ l -> pyremove x (pyinsert i x l) = l.
Proof.
  unfold pyinsert. revert i. induction l as [|y l IH]; intros i Hin.
  - destruct i; simpl; by destruct (decide (x = x)).
  - apply not_elem_of_cons in Hin as [Hne Hin].
    destruct i as [|i]; simpl.
    + by destruct (decide (x = x)).
    + destruct (decide (y = x)) as [->|_]; [done|]. by rewrite IH.
Qed.

Lemma find_insert_idx_power i pre post :
  "power" ∉ pre ->
  find_insert_idx i (pre ++ "power" :: post) = S (i + List.length pre)%nat.
Proof.
  revert i. induction pre as [|p pre IH]; intros i Hpre; simpl.
  - destruct (decide ("power" = "power")); [lia|done].
  - apply not_elem_of_cons in Hpre as [Hne Hpre].
    destruct (decide (p = "power")) as [->|_]; [done|].
    rewrite IH by done. lia.
Qed.

Lemma pyindex_power pre post :
  "power" ∉ pre -> pyindex "power" (pre ++ "power" :: post) = Some (List.length pre).
Proof.
  induction pre as [|p pre IH]; intros Hpre; simpl.
  - by destruct (decide ("power" = "power")).
  - apply not_elem_of_cons in Hpre as [Hne Hpre].
    destruct (decide (p = "power")) as [->|_]; [done|].
    by rewrite IH.
Qed.

Lemma pyremove_power pre post :
  "power" ∉ pre -> pyremove "power" (pre ++ "power" :: post) = (pre ++ post)%list.
Proof.
  induction pre as [|p pre IH]; intros Hpre; simpl.
  - by destruct (decide ("power" = "power")).
  - apply not_elem_of_cons in Hpre as [Hne Hpre].
    destruct (decide (p = "power")) as [->|_]; [done|].
    by rewrite IH.
Qed.

Lemma pyinsert_middle x pre post :
  pyinsert (List.length pre) x (pre ++ post) = (pre ++ x :: post)%list.
Proof.
  unfold pyinsert. by rewrite take_app_length, drop_app_length.
Qed.

Lemma pyinsert_after x y pre post :
  pyinsert (S (List.length pre)) x (pre ++ y :: post) = (pre ++ y :: x :: post)%list.
Proof.
  replace (pre ++ y :: post)%list with ((pre ++ [y]) ++ post)%list
    by by rewrite <- app_assoc.
  replace (S (List.length pre)) with (List.length (pre ++ [y])) by (rewrite length_app; simpl; lia).
  rewrite pyinsert_middle. by rewrite <- app_assoc.
Qed.

(** X6: the inputs of Sample Size mode.  On an order without a duplicate
    that holds ["power"] and the count the design solves for, and not the
    effect size, the form shows as many inputs as in MDES mode; the count
    solved for is not among them; the effect size comes right after
    ["power"]; and apart from the effect size the inputs are those of MDES
    mode without the count, in the same order. *)
Theorem sample_size_order (design : design_info) :
  NoDup (params_order design) ->
  sample_size_for design ∈ params_order design ->
  "power" ∈ params_order design ->
  sample_size_for design <> "power" ->
  "es" ∉ params_order design ->
  let shown := param_order Mode_SampleSize design in
  List.length shown = List.length (params_order design)
  /\ (sample_size_for design ∉ shown)
  /\ (exists pre post, shown = (pre ++ "power" :: "es" :: post)%list)
  /\ pyremove "es" shown = pyremove (sample_size_for design) (params_order design).
Proof.
  intros Hnd Hss Hpower Hne Hes shown.
  set (rest := pyremove (sample_size_for design) (params_order design)).
  assert (shown = pyinsert (find_insert_idx 0 rest) "es" rest) as Hdef.
  { unfold shown, param_order. by rewrite bool_decide_eq_true_2. }
  clearbody shown. subst shown.
  assert ("es" ∉ rest) as Hes'.
  { unfold rest. rewrite elem_of_pyremove by done. tauto. }
  assert ("power" ∈ rest) as Hpower'.
  { unfold rest. rewrite elem_of_pyremove by done. split; [done|congruence]. }
  apply list_elem_of_split_l in Hpower' as (pre & post & Hrest & Hpre).
  split; [|split; [|split]].
  - rewrite pyinsert_length. by apply pyremove_length.
  - rewrite elem_of_pyinsert. unfold rest.
    rewrite elem_of_pyremove by done. intros [Heq|[_ Hcontra]]; [|done].
    apply Hes. by rewrite <- Heq.
  - exists pre, post. rewrite Hrest, find_insert_idx_power by done.
    apply pyinsert_after.
  - by apply pyremove_pyinsert.
Qed.

(** X6 on the entry of IRA: n is replaced by the effect size, which is
    shown after power. *)
Lemma sample_size_order_ira :
  exists design,
    dict_of DESIGNS !! "ira" = Some design
    /\ param_order Mode_SampleSize design =
       ["alpha"; "two_tailed"; "power"; "es"; "p"; "r21"; "g"]
    /\ let shown := param_order Mode_SampleSize design in
       List.length shown = List.length (params_order design)
       /\ (sample_size_for design ∉ shown)
       /\ (exists pre post, shown = (pre ++ "power" :: "es" :: post)%list)
       /\ pyremove "es" shown =
          pyremove (sample_size_for design) (params_order design).
Proof.
  eexists. split; [vm_compute; reflexivity|].
  split; [vm_compute; reflexivity|].
  apply sample_size_order;
    solve [ apply (bool_decide_unpack _); vm_compute; exact I | discriminate ].
Defined.

(** X7: the inputs of Power mode.  The first ["power"] of the order is
    replaced, in place, by the effect size; every other input keeps its
    position. *)
Theorem power_order (design : design_info) (pre post : list string) :
  params_order design = (pre ++ "power" :: post)%list -> "power" ∉ pre ->
  param_order Mode_Power design = (pre ++ "es" :: post)%list.
Proof.
  intros Horder Hpre. unfold param_order. rewrite Horder.
  rewrite bool_decide_eq_true_2
    by (apply elem_of_app; right; apply elem_of_cons; by left).
  rewrite pyindex_power, pyremove_power by done.
  apply pyinsert_middle.
Qed.

(** X7 on the entry of IRA. *)
Lemma power_order_ira :
  exists design,
    dict_of DESIGNS !! "ira" = Some design
    /\ param_order Mode_Power design =
       ["alpha"; "two_tailed"; "es"; "p"; "r21"; "g"; "n"].
Proof.
  eexists. split; [vm_compute; reflexivity|].
  apply (power_order _ ["alpha"; "two_tailed"] ["p"; "r21"; "g"; "n"]);
    [reflexivity|apply (bool_decide_unpack _); vm_compute; exact I].
Defined.

Lemma elem_of_param_order_sample_size design k :
  NoDup (params_order design) ->
  sample_size_for design ∈ params_order design ->
  k ∈ param_order Mode_SampleSize design <->
  k = "es" \/ (k ∈ params_order design /\ k <> sample_size_for design).
Proof.
  intros Hnd Hss. unfold param_order.
  rewrite bool_decide_eq_true_2 by done.
  by rewrite elem_of_pyinsert, elem_of_pyremove.
Qed.

Lemma elem_of_param_order_power design k :
  NoDup (params_order design) ->
  "power" ∈ params_order design ->
  k ∈ param_order Mode_Power design <->
  k = "es" \/ (k ∈ params_order design /\ k <> "power").
Proof.
  intros Hnd Hpower.
  destruct (list_elem_of_split_l _ _ Hpower) as (pre & post & Horder & Hpre).
  assert (param_order Mode_Power design = (pre ++ "es" :: post)%list) as ->.
  { unfold param_order. rewrite Horder.
    rewrite bool_decide_eq_true_2
      by (apply elem_of_app; right; apply elem_of_cons; by left).
    rewrite pyindex_power, pyremove_power by done.
    apply pyinsert_middle. }
  rewrite Horder in *.
  apply NoDup_app in Hnd as (_ & Hfresh & Hpost).
  apply NoDup_cons in Hpost as [Hpost _].
  rewrite !elem_of_app, !elem_of_cons.
  split; [intros [?|[?|?]]|intros [?|[[?|[?|?]] ?]]]; try tauto.
  - right. split; [tauto|]. intros ->. done.
  - right. split; [tauto|]. intros ->. done.
Qed.

End OrderFacts.

(** ** The values computed from the form *)

Module CollectFacts.
Import Df DfFacts Form Multiplier DfFrame TableFacts OrderFacts.

Section Collect.
Variable input_int : string -> Z.
Variable input_float : string -> R.

Lemma collect_params_snoc order x :
  collect_params input_int input_float (order ++ [x])%list =
  collect_step input_int input_float
    (collect_params input_int input_float order) x.
Proof. unfold collect_params. by rewrite foldl_app. Qed.

Lemma collect_ints_lookup order k :
  ints (collect_params input_int input_float order) !! k =
  if bool_decide (k ∈ order) then int_input input_int k else None.
Proof.
  induction order as [|x order IH] using rev_ind.
  - rewrite bool_decide_eq_false_2 by apply not_elem_of_nil. apply lookup_empty.
  - rewrite collect_params_snoc. unfold collect_step, int_input in *.
    generalize dependent (dict_of PARAMS). intros table IH.
    destruct (decide (k = x)) as [->|Hne].
    + rewrite (bool_decide_eq_true_2 (x ∈ (order ++ [x])%list))
        by (apply elem_of_app; right; apply list_elem_of_singleton; reflexivity).
      destruct (table !! x) as [def|] eqn:Hdef.
      * destruct (is_int def); cbn [ints floats]; [by rewrite lookup_insert_eq|].
        rewrite IH. by case_bool_decide.
      * rewrite IH. by case_bool_decide.
    + assert (bool_decide (k ∈ (order ++ [x])%list) = bool_decide (k ∈ order)) as ->.
      { apply bool_decide_ext. rewrite elem_of_app, list_elem_of_singleton. tauto. }
      destruct (table !! x) as [def|]; [|exact IH].
      destruct (is_int def); cbn [ints floats]; [|exact IH].
      by rewrite lookup_insert_ne.
Qed.

Lemma collect_floats_lookup order k :
  floats (collect_params input_int input_float order) !! k =
  if bool_decide (k ∈ order) then float_input input_float k else None.
Proof.
  induction order as [|x order IH] using rev_ind.
  - rewrite bool_decide_eq_false_2 by apply not_elem_of_nil. apply lookup_empty.
  - rewrite collect_params_snoc. unfold collect_step, float_input in *.
    generalize dependent (dict_of PARAMS). intros table IH.
    destruct (decide (k = x)) as [->|Hne].
    + rewrite (bool_decide_eq_true_2 (x ∈ (order ++ [x])%list))
        by (apply elem_of_app; right; apply list_elem_of_singleton; reflexivity).
      destruct (table !! x) as [def|] eqn:Hdef.
      * destruct (is_int def); cbn [ints floats]; [|by rewrite lookup_insert_eq].
        rewrite IH. by case_bool_decide.
      * rewrite IH. by case_bool_decide.
    + assert (bool_decide (k ∈ (order ++ [x])%list) = bool_decide (k ∈ order)) as ->.
      { apply bool_decide_ext. rewrite elem_of_app, list_elem_of_singleton. tauto. }
      destruct (table !! x) as [def|]; [|exact IH].
      destruct (is_int def); cbn [ints floats]; [exact IH|].
      by rewrite lookup_insert_ne.
Qed.

(** A count that is in the order reads as the value entered for it. *)
Lemma get_entered order k dflt :
  k ∈ ["two_tailed"; "n"; "J"; "K"; "L"; "g"; "T"] -> k ∈ order ->
  get (ints (collect_params input_int input_float order)) k dflt = input_int k.
Proof.
  intros Hk Hin. unfold get.
  rewrite collect_ints_lookup, bool_decide_eq_true_2 by done.
  by rewrite int_input_count.
Qed.

(** Every count the formula of a design reads is an input of the design:
    on the inputs of MDES mode the resolver gives the formula at the
    values entered. *)
Lemma entered_df key design :
  (key, design) ∈ DESIGNS ->
  get_df_for_design key
    (ints (collect_params input_int input_float (params_order design))) =
  Z.max 1 (default 10
    (df_formulas (input_int "n") (input_int "J") (input_int "K")
       (input_int "L") (input_int "g") (input_int "T") !! key)).
Proof.
  intros Hin.
  destruct (DESIGNS_lookup_entry key design Hin) as (d & -> & Hlook).
  rewrite get_df_listed, df_formulas_listed.
  change (default 10 (Some ?x)) with x.
  destruct d; vm_compute in Hlook; injection Hlook as <-;
    cbn [params_order]; unfold listed_df;
    rewrite !get_entered
      by (apply (bool_decide_unpack _); vm_compute; exact I);
    reflexivity.
Qed.

End Collect.

Lemma collect_overwrite input_int input_float order k v :
  k ∈ ["two_tailed"; "n"; "J"; "K"; "L"; "g"; "T"] -> k ∈ order ->
  <[k := v]> (ints (collect_params input_int input_float order)) =
  ints (collect_params (fun key => if decide (key = k) then v else input_int key)
          input_float order).
Proof.
  intros Hk Hin. apply map_eq. intros key.
  destruct (decide (key = k)) as [->|Hne].
  - rewrite lookup_insert_eq, collect_ints_lookup, bool_decide_eq_true_2 by done.
    rewrite int_input_count by done. by rewrite decide_True.
  - rewrite lookup_insert_ne by done. rewrite !collect_ints_lookup.
    unfold int_input. by rewrite decide_False.
Qed.

(** X9: the computed values of MDES mode, for every entry of [DESIGNS]:
    alpha, power and the tail count are the values entered (the defaults
    0.05, 0.8 and 2 of the three [get] calls are never used), and the
    degrees of freedom are the formula of the design at the counts
    entered, floored at 1: every count the formula reads is an input of
    the design, so no fallback is used. *)
Theorem mdes_mode_computed_values :
  Forall (fun kv : string * design_info =>
    forall (ppf : R -> Z -> R) (input_int : string -> Z)
           (input_float : string -> R),
      let full := collect_params input_int input_float
                    (param_order Mode_MDES kv.2) in
      let df := Z.max 1 (default 10
                  (df_formulas (input_int "n") (input_int "J") (input_int "K")
                     (input_int "L") (input_int "g") (input_int "T") !! kv.1)) in
      computed_values ppf kv.1 full =
      (calculate_multiplier ppf (input_float "alpha") (input_float "power") df
         (input_int "two_tailed"), df))
    DESIGNS.
Proof.
  apply Forall_forall. intros [key design] Hin ppf input_int input_float full df.
  pose proof (proj1 (Forall_forall _ _) DESIGNS_ok _ Hin)
    as (Hnd & Halpha & Htails & Hpower & _). cbn [fst snd] in *.
  change (param_order Mode_MDES design) with (params_order design) in full.
  assert (floats full !! "alpha" = Some (input_float "alpha")) as Ha.
  { unfold full. rewrite collect_floats_lookup, bool_decide_eq_true_2 by done.
    apply float_input_float. rewrite !elem_of_cons; tauto. }
  assert (floats full !! "power" = Some (input_float "power")) as Hp.
  { unfold full. rewrite collect_floats_lookup, bool_decide_eq_true_2 by done.
    apply float_input_float. rewrite !elem_of_cons; tauto. }
  assert (get (ints full) "two_tailed" 2 = input_int "two_tailed") as Ht.
  { unfold full. apply get_entered; [rewrite !elem_of_cons; tauto|done]. }
  assert (get_df_for_design key (ints full) = df) as Hdf
    by (by apply entered_df).
  unfold computed_values. by rewrite Hdf, Ha, Hp, Ht.
Qed.

(** X10: the computed values of Sample Size mode, for every entry of
    [DESIGNS].  The count the design solves for is not an input, so the
    resolver reads its fallback (30 for n, 10 for J, K and L): the degrees
    of freedom and the multiplier shown with the result are those of the
    formula at the fallback of that count and at the other counts as
    entered, whatever sample size was computed.  alpha, power and the
    tail count are the values entered. *)
Theorem sample_size_mode_computed_values :
  Forall (fun kv : string * design_info =>
    forall (ppf : R -> Z -> R) (input_int : string -> Z)
           (input_float : string -> R),
      let shown := collect_params input_int input_float
                     (param_order Mode_SampleSize kv.2) in
      let count := fun key : string =>
        if decide (key = sample_size_for kv.2)
        then default 0 (fallbacks !! sample_size_for kv.2)
        else input_int key in
      let df := Z.max 1 (default 10
                  (df_formulas (count "n") (count "J") (count "K")
                     (count "L") (count "g") (count "T") !! kv.1)) in
      ints shown !! sample_size_for kv.2 = None
      /\ computed_values ppf kv.1 shown =
         (calculate_multiplier ppf (input_float "alpha") (input_float "power")
            df (input_int "two_tailed"), df))
    DESIGNS.
Proof.
  apply Forall_forall.
  intros [key design] Hin ppf input_int input_float shown count df.
  pose proof (proj1 (Forall_forall _ _) DESIGNS_ok _ Hin)
    as (Hnd & Halpha & Htails & Hpower & _ & Hes & Hss & Hss4 & _).
  cbn [fst snd] in *.
  destruct (solved_count_is_count _ Hss4) as (Hcount & Hna & Hnp & Hne & Hnt).
  set (full := collect_params input_int input_float (params_order design)).
  assert (ints shown = delete (sample_size_for design) (ints full)) as Hints.
  { apply map_eq. intros k. unfold shown, full.
    rewrite lookup_delete, !collect_ints_lookup.
    destruct (decide (sample_size_for design = k)) as [<-|Hk].
    - rewrite bool_decide_eq_false_2; [done|].
      rewrite elem_of_param_order_sample_size by done.
      intros [Heq|[_ Hcontra]]; done.
    - destruct (decide (k = "es")) as [->|Hkes].
      + rewrite (int_input_float input_int "es")
          by (rewrite !elem_of_cons; tauto).
        by repeat case_bool_decide.
      + assert (bool_decide (k ∈ param_order Mode_SampleSize design)
                = bool_decide (k ∈ params_order design)) as ->; [|done].
        apply bool_decide_ext.
        rewrite elem_of_param_order_sample_size by done.
        split; [intros [?|[? _]]; done|intros ?; right; split; congruence]. }
  assert (floats shown !! "alpha" = Some (input_float "alpha")) as Ha.
  { unfold shown. rewrite collect_floats_lookup, bool_decide_eq_true_2.
    - apply float_input_float. rewrite !elem_of_cons; tauto.
    - rewrite elem_of_param_order_sample_size by done. right. split; congruence. }
  assert (floats shown !! "power" = Some (input_float "power")) as Hp.
  { unfold shown. rewrite collect_floats_lookup, bool_decide_eq_true_2.
    - apply float_input_float. rewrite !elem_of_cons; tauto.
    - rewrite elem_of_param_order_sample_size by done. right. split; congruence. }
  assert (get (ints shown) "two_tailed" 2 = input_int "two_tailed") as Ht.
  { rewrite Hints. unfold get. rewrite lookup_delete_ne by congruence.
    apply get_entered; [rewrite !elem_of_cons; tauto|done]. }
  assert (get_df_for_design key (ints shown) = df) as Hdf.
  { rewrite Hints, get_df_delete. unfold full.
    rewrite collect_overwrite by done. by apply entered_df. }
  split; [rewrite Hints; apply lookup_delete_eq|].
  unfold computed_values. by rewrite Hdf, Ha, Hp, Ht.
Qed.

(** X11: the computed values of Power mode, for every entry of [DESIGNS].
    Power is not an input, so the multiplier shown with the result is
    computed at the default power 0.8, whatever power was found; alpha
    and the tail count are the values entered, and the degrees of freedom
    are the formula of the design at the counts entered, floored at 1. *)
Theorem power_mode_computed_values :
  Forall (fun kv : string * design_info =>
    forall (ppf : R -> Z -> R) (input_int : string -> Z)
           (input_float : string -> R),
      let shown := collect_params input_int input_float
                     (param_order Mode_Power kv.2) in
      let df := Z.max 1 (default 10
                  (df_formulas (input_int "n") (input_int "J") (input_int "K")
                     (input_int "L") (input_int "g") (input_int "T") !! kv.1)) in
      floats shown !! "power" = None
      /\ computed_values ppf kv.1 shown =
         (calculate_multiplier ppf (input_float "alpha") 0.8 df
            (input_int "two_tailed"), df))
    DESIGNS.
Proof.
  apply Forall_forall. intros [key design] Hin ppf input_int input_float shown df.
  pose proof (proj1 (Forall_forall _ _) DESIGNS_ok _ Hin)
    as (Hnd & Halpha & Htails & Hpower & _). cbn [fst snd] in *.
  set (full := collect_params input_int input_float (params_order design)).
  assert (ints shown = ints full) as Hints.
  { apply map_eq. intros k. unfold shown, full. rewrite !collect_ints_lookup.
    destruct (decide (k = "es")) as [->|Hkes].
    { rewrite (int_input_float input_int "es")
        by (rewrite !elem_of_cons; tauto).
      by repeat case_bool_decide. }
    destruct (decide (k = "power")) as [->|Hkp].
    { rewrite (int_input_float input_int "power")
        by (rewrite !elem_of_cons; tauto).
      by repeat case_bool_decide. }
    assert (bool_decide (k ∈ param_order Mode_Power design)
            = bool_decide (k ∈ params_order design)) as ->; [|done].
    apply bool_decide_ext.
    rewrite elem_of_param_order_power by done.
    split; [intros [?|[? _]]; done|intros ?; right; split; congruence]. }
  assert (floats shown !! "power" = None) as Hp.
  { unfold shown. rewrite collect_floats_lookup.
    rewrite bool_decide_eq_false_2; [done|].
    rewrite elem_of_param_order_power by done.
    intros [Heq|[_ Hcontra]]; done. }
  assert (floats shown !! "alpha" = Some (input_float "alpha")) as Ha.
  { unfold shown. rewrite collect_floats_lookup.
    rewrite bool_decide_eq_true_2.
    - apply float_input_float. rewrite !elem_of_cons; tauto.
    - rewrite elem_of_param_order_power by done. right. by split. }
  assert (get (ints shown) "two_tailed" 2 = input_int "two_tailed") as Ht.
  { rewrite Hints. apply get_entered; [rewrite !elem_of_cons; tauto|done]. }
  assert (get_df_for_design key (ints shown) = df) as Hdf
    by (rewrite Hints; by apply entered_df).
  split; [exact Hp|].
  unfold computed_values. by rewrite Hdf, Hp, Ha, Ht.
Qed.

End CollectFacts.

(** ** The design effect on the range of the form *)

Module DesignEffectRange.
Import DesignEffect DesignEffectFacts.
Local Open Scope R_scope.

Lemma inv_one_minus_square_lt a b :
  0 <= a -> a < b -> b < 1 -> 1 / (1 - a ^ 2) < 1 / (1 - b ^ 2).
Proof.
  intros Ha Hab Hb. unfold Rdiv. rewrite !Rmult_1_l.
  assert (0 < 1 - a ^ 2) as Hda by nra.
  assert (0 < 1 - b ^ 2) as Hdb by nra.
  apply Rinv_lt_contravar; [by apply Rmult_lt_0_compat|nra].
Qed.

(** X15: on the range of the correlation input of the form,
    0.01 <= rho_ts <= 0.99, [estimate_design_effect] returns a finite
    value: it never raises and never gives infinity there.  The value is
    above 1 and at most the value at 0.99, which is below 50.26. *)
Theorem estimate_design_effect_on_form_range (rho_ts : R) :
  0.01 <= rho_ts <= 0.99 ->
  exists v, estimate_design_effect rho_ts = Returns (Finite v)
            /\ 1 < v /\ v <= 1 / (1 - 0.99 ^ 2) /\ v < 50.26.
Proof.
  intros [Hlo Hhi]. pose proof overflow_bound_gt_1 as Hb.
  eexists. split; [apply estimate_below_1; lra|].
  assert (1 / (1 - 0 ^ 2) < 1 / (1 - rho_ts ^ 2)) as H0
    by (apply inv_one_minus_square_lt; lra).
  replace (1 / (1 - 0 ^ 2)) with 1 in H0 by (unfold Rdiv; simpl; field).
  assert (1 / (1 - rho_ts ^ 2) <= 1 / (1 - 0.99 ^ 2)) as H1.
  { destruct Hhi as [Hlt| ->]; [|lra].
    left. apply inv_one_minus_square_lt; lra. }
  split; [exact H0|]. split; [exact H1|].
  assert (1 / (1 - 0.99 ^ 2) < 50.26) by lra. lra.
Qed.

(** X15 at the default of the input, rho_ts = 0.80. *)
Lemma estimate_design_effect_on_form_range_default :
  exists v, estimate_design_effect 0.80 = Returns (Finite v)
            /\ 1 < v /\ v <= 1 / (1 - 0.99 ^ 2) /\ v < 50.26.
Proof. apply estimate_design_effect_on_form_range. lra. Defined.

End DesignEffectRange.

(** ** The LaTeX export *)

Module ExportsFacts.
Import Form Exports.

Lemma append_cons c (a b : string) : String c a ++ b = String c (a ++ b).
Proof. reflexivity. Qed.

Lemma append_nil (b : string) : "" ++ b = b.
Proof. reflexivity. Qed.

Section Rstrip.
Variable chars : list ascii.

Lemma rstrip_cons_keep c s :
  c ∉ chars -> rstrip chars (String c s) = String c (rstrip chars s).
Proof.
  intros Hc. simpl. destruct (rstrip chars s); [|done].
  by rewrite bool_decide_eq_false_2.
Qed.

Lemma rstrip_cons_nonempty c s :
  rstrip chars s <> "" -> rstrip chars (String c s) = String c (rstrip chars s).
Proof. intros Hs. simpl. by destruct (rstrip chars s). Qed.

Lemma rstrip_app_nonempty a b :
  rstrip chars b <> "" -> rstrip chars (a ++ b) = a ++ rstrip chars b.
Proof.
  intros Hb. induction a as [|c a IH]; [done|].
  rewrite !append_cons. rewrite rstrip_cons_nonempty, IH; [done|].
  rewrite IH. destruct a; [by rewrite append_nil|by rewrite append_cons].
Qed.

Lemma rstrip_app_stripped a b :
  rstrip chars b = "" -> rstrip chars (a ++ b) = rstrip chars a.
Proof.
  intros Hb. induction a as [|c a IH]; [done|].
  rewrite append_cons. simpl. by rewrite IH.
Qed.

Lemma rstrip_none s :
  Forall (fun c => c ∉ chars) (list_ascii_of_string s) -> rstrip chars s = s.
Proof.
  induction s as [|c s IH]; [done|]. cbn [list_ascii_of_string].
  intros Hs. apply Forall_cons in Hs as [Hc Hs].
  by rewrite rstrip_cons_keep, IH.
Qed.

Lemma rstrip_chars s :
  Forall (fun c => c ∈ list_ascii_of_string s)
         (list_ascii_of_string (rstrip chars s)).
Proof.
  induction s as [|c s IH]; [constructor|]. simpl.
  destruct (rstrip chars s) as [|c' r] eqn:Hr.
  - case_bool_decide; [constructor|].
    cbn [list_ascii_of_string]. repeat constructor.
  - cbn [list_ascii_of_string] in *. constructor; [by left|].
    eapply Forall_impl; [exact IH|]. intros x Hx. by right.
Qed.
End Rstrip.

(** X17: what [fmt_val] does to a number printed with a decimal point.
    When the text is an integer part, a point and decimals, the integer
    part is never touched, also when it ends in 0: the trailing zeros of
    the decimals go, and the point goes with them only when no decimal is
    left. *)
Theorem strip_decimals_keeps_integer_part (ip frac : string) :
  "."%char ∉ list_ascii_of_string ip ->
  "."%char ∉ list_ascii_of_string frac ->
  strip_decimals (ip ++ "." ++ frac) =
  match rstrip ["0"%char] frac with
  | EmptyString => ip
  | digits => ip ++ "." ++ digits
  end.
Proof.
  intros Hip Hfrac. unfold strip_decimals.
  assert ("."%char ∉ ["0"%char]) as Hdot by (rewrite list_elem_of_singleton; done).
  change ("." ++ frac) with (String "." frac).
  rewrite (rstrip_app_nonempty _ ip (String "." frac))
    by (by rewrite rstrip_cons_keep).
  rewrite rstrip_cons_keep by done.
  pose proof (rstrip_chars ["0"%char] frac) as Hsub.
  destruct (rstrip ["0"%char] frac) as [|c digits] eqn:Hz.
  - rewrite rstrip_app_stripped.
    + apply rstrip_none. apply Forall_forall. intros c Hc.
      rewrite list_elem_of_singleton. by intros ->.
    + reflexivity.
  - assert (rstrip ["."%char] (String c digits) = String c digits) as Hkeep.
    { apply rstrip_none. eapply Forall_impl; [exact Hsub|].
      intros x Hx. rewrite list_elem_of_singleton. by intros ->. }
    rewrite rstrip_app_nonempty.
    + by rewrite rstrip_cons_nonempty, Hkeep by (by rewrite Hkeep).
    + by rewrite rstrip_cons_nonempty, Hkeep by (by rewrite Hkeep).
Qed.

(** X17 on three texts: 100.0000 gives 100, 0.2500 gives 0.25 and 2.7778
    stays. *)
Lemma strip_decimals_examples :
  strip_decimals "100.0000" = "100" /\ strip_decimals "0.2500" = "0.25"
  /\ strip_decimals "2.7778" = "2.7778".
Proof.
  split; [|split].
  - apply (strip_decimals_keeps_integer_part "100" "0000");
      apply (bool_decide_unpack _); vm_compute; exact I.
  - apply (strip_decimals_keeps_integer_part "0" "2500");
      apply (bool_decide_unpack _); vm_compute; exact I.
  - apply (strip_decimals_keeps_integer_part "2" "7778");
      apply (bool_decide_unpack _); vm_compute; exact I.
Defined.

(** X18: the LaTeX table describes the result as the application does.
    For every entry of [DESIGNS], the description [export_to_latex]
    derives from the label of the result is the description [main] shows
    in MDES mode and in Power mode; in Sample Size mode it is the one of
    [main] without the name of the count in brackets. *)
Theorem latex_describes_the_result :
  Forall (fun kv : string * design_info =>
    result_full (result_label Mode_MDES kv.2) = result_desc Mode_MDES kv.2
    /\ result_full (result_label Mode_Power kv.2) = result_desc Mode_Power kv.2
    /\ result_desc Mode_SampleSize kv.2 =
       result_full (result_label Mode_SampleSize kv.2)
       ++ " (" ++ upper (sample_size_for kv.2) ++ ")")
    DESIGNS.
Proof. apply (bool_decide_unpack _). vm_compute. exact I. Qed.

End ExportsFacts.
